(** * Conversational business assistant: intent, flows, identity and search

    A shallow embedding of the decision logic of [app.py] and of the
    [business/] package (phone identity, listing lookup, insert and update),
    with the properties the specification states about them.

    Conventions.
    - Python [str] values are modelled as [string] over 8-bit characters; the
      development covers ASCII text ([str.lower], [str.isdigit] and
      [str.strip] are modelled on that range).
    - The SQLite table [google_maps_listings] is a list of rows in rowid
      order, which is the order a full-table [SELECT] scans it in.
    - [st.session_state] is an explicit record threaded through every
      handler, together with the table. *)

From Stdlib Require Import ZArith QArith List String Ascii Bool Lia.
From Stdlib Require Import Sorting.Sorted Sorting.Permutation.
From stdpp Require Import gmap strings.

Import ListNotations.
Local Open Scope string_scope.
Local Open Scope Z_scope.

(** ** Python string primitives *)

Module Py.

(** [c.isdigit()] on the ASCII range. *)
Definition isdigit (c : ascii) : bool :=
  let n := nat_of_ascii c in (48 <=? n)%nat && (n <=? 57)%nat.

(** [c.isspace()]: tab, newline, vertical tab, form feed, carriage return,
    the four separators 0x1c-0x1f and the space. *)
Definition isspace (c : ascii) : bool :=
  let n := nat_of_ascii c in
  ((9 <=? n)%nat && (n <=? 13)%nat) || ((28 <=? n)%nat && (n <=? 32)%nat).

Definition isupper (c : ascii) : bool :=
  let n := nat_of_ascii c in (65 <=? n)%nat && (n <=? 90)%nat.

Definition islower (c : ascii) : bool :=
  let n := nat_of_ascii c in (97 <=? n)%nat && (n <=? 122)%nat.

Definition lower_char (c : ascii) : ascii :=
  if isupper c then ascii_of_nat (nat_of_ascii c + 32) else c.

Definition upper_char (c : ascii) : ascii :=
  if islower c then ascii_of_nat (nat_of_ascii c - 32) else c.

(** [s.lower()] *)
Fixpoint lower (s : string) : string :=
  match s with
  | EmptyString => EmptyString
  | String c r => String (lower_char c) (lower r)
  end.

(** [s.lstrip()] *)
Fixpoint lstrip (s : string) : string :=
  match s with
  | EmptyString => EmptyString
  | String c r => if isspace c then lstrip r else s
  end.

(** [s.rstrip()] *)
Fixpoint rstrip (s : string) : string :=
  match s with
  | EmptyString => EmptyString
  | String c r =>
      match rstrip r with
      | EmptyString => if isspace c then EmptyString else String c EmptyString
      | r' => String c r'
      end
  end.

(** [s.strip()] *)
Definition strip (s : string) : string := rstrip (lstrip s).

(** Truthiness of a string: [bool(s)]. *)
Definition truthy (s : string) : bool :=
  match s with EmptyString => false | _ => true end.

(** [len(s)] *)
Definition len (s : string) : nat := String.length s.

(** [s.startswith(p)] *)
Fixpoint startswith (p s : string) : bool :=
  match p, s with
  | EmptyString, _ => true
  | String a p', String b s' => Ascii.eqb a b && startswith p' s'
  | String _ _, EmptyString => false
  end.

(** [p in s] for strings: [p] occurs in [s] as a contiguous substring. *)
Fixpoint contains (p s : string) : bool :=
  startswith p s ||
  match s with
  | EmptyString => false
  | String _ s' => contains p s'
  end.

(** [s[n:]] *)
Fixpoint drop (n : nat) (s : string) : string :=
  match n, s with
  | O, _ => s
  | S k, String _ s' => drop k s'
  | S _, EmptyString => EmptyString
  end.

(** [s[:n]] *)
Fixpoint take (n : nat) (s : string) : string :=
  match n, s with
  | S k, String c s' => String c (take k s')
  | _, _ => EmptyString
  end.

(** [s.endswith(p)] *)
Definition endswith (p s : string) : bool :=
  (len p <=? len s)%nat && String.eqb (drop (len s - len p) s) p.

(** [s.replace(old, new)] for a non-empty [old]: occurrences are replaced
    from left to right and do not overlap.  [skip] counts the characters of
    an occurrence still to be passed over. *)
Fixpoint replace_from (old new : string) (skip : nat) (s : string) : string :=
  match s with
  | EmptyString => EmptyString
  | String c s' =>
      match skip with
      | S k => replace_from old new k s'
      | O =>
          if startswith old s
          then new ++ replace_from old new (len old - 1) s'
          else String c (replace_from old new O s')
      end
  end.

Definition replace (old new s : string) : string := replace_from old new 0 s.

(** [s.split()]: maximal runs of non-whitespace characters.  [cur] is the
    word being read, kept reversed. *)
Definition rev_string (l : list ascii) : string :=
  string_of_list_ascii (List.rev l).

Fixpoint split_from (cur : list ascii) (s : string) : list string :=
  match s with
  | EmptyString =>
      match cur with [] => [] | _ => [rev_string cur] end
  | String c s' =>
      if isspace c
      then match cur with
           | [] => split_from [] s'
           | _ => rev_string cur :: split_from [] s'
           end
      else split_from (c :: cur) s'
  end.

Definition split (s : string) : list string := split_from [] s.

(** [sep.join(l)] *)
Fixpoint join (sep : string) (l : list string) : string :=
  match l with
  | [] => EmptyString
  | [x] => x
  | x :: r => x ++ sep ++ join sep r
  end.

(** [s.title()]: the first cased character of every run of letters is
    upper-cased, the others lower-cased. *)
Fixpoint title_from (prev_cased : bool) (s : string) : string :=
  match s with
  | EmptyString => EmptyString
  | String c s' =>
      let cased := isupper c || islower c in
      String (if prev_cased then lower_char c else upper_char c)
             (title_from cased s')
  end.

Definition title (s : string) : string := title_from false s.

(** [x in l] for a list of strings. *)
Definition mem (x : string) (l : list string) : bool :=
  existsb (String.eqb x) l.

(** [o or ''] for a nullable text column. *)
Definition or_empty (o : option string) : string :=
  match o with Some s => s | None => EmptyString end.

End Py.

(** ** Data model: listings and the listings table *)

(** One row of [google_maps_listings] (and the [dict(row)] made of it).
    Text and numeric columns are nullable ([None] is SQL NULL, Python
    [None]).  [rowid] is SQLite's row identifier, which SQLite assigns as
    positive integers.  [created_at] is the timestamp string [add_business]
    writes, or NULL: [dict(row)] always carries the key, so the default of
    [x.get('created_at', '')] is used only over a table without the column,
    which behaves as one with the empty string in every row. *)
Module Listing.
Record t : Type := mk {
  rowid : positive;
  id : option Z;
  name : option string;
  address : option string;
  phone_number : option string;
  website : option string;
  category : option string;
  subcategory : option string;
  city : option string;
  state : option string;
  area : option string;
  reviews_count : option Z;
  reviews_average : option Q;
  created_at : option string
}.
End Listing.

Abbreviation Listing := Listing.t.

(** The table, in scan order. *)
Abbreviation Store := (list Listing).

(** ** The collaborators outside the repository

    What the code calls and the sources do not define: [difflib]'s
    [get_close_matches] (always called with the default cutoff 0.6), the
    online search and its ranking (a result is a mapping of field names to
    values), the clock, the ways an SQLite write can raise, and the state in
    which [list.sort] leaves a list when a comparison raises.  An error is
    [Some msg], [msg] being [str(e)].

    Of a sort that raises Python says that "the list will likely be left in
    a partially modified state": it holds the same elements, in an order that
    depends on how far the sort had got (the order it had before, when the
    first comparison already fails). *)
Abbreviation online_result := (gmap string string).

Record World : Type := {
  get_close_matches : string -> list string -> nat -> list string;
  search_online : string -> string + list online_result;
  rank_online_results : list online_result -> list online_result;
  utcnow : Store -> string;
  insert_error : Store -> Listing -> option string;
  update_error : Store -> gmap string string -> list positive -> option string;
  aborted_sort : list Listing -> list Listing;
  aborted_sort_same : forall l, Permutation (aborted_sort l) l
}.

(** What a call produces: a value, or an exception carrying [str(e)]. *)
Inductive outcome (A : Type) : Type :=
| Ret (a : A)
| Raise (msg : string).
Arguments Ret {A} a.
Arguments Raise {A} msg.

(** ** business/business_utils.py *)

(** [filter(str.isdigit, phone)] *)
Fixpoint digits (s : string) : string :=
  match s with
  | EmptyString => EmptyString
  | String c r => if Py.isdigit c then String c (digits r) else digits r
  end.

(** [normalize_phone]: [None] and the empty string give the empty string,
    any other string its digits. *)
Definition normalize_phone (phone : option string) : string :=
  match phone with
  | None => EmptyString
  | Some s => if Py.truthy s then digits s else EmptyString
  end.

(** ** Stable sorting, as [list.sort] and [ORDER BY] are modelled

    [before x y] says that the key of [x] is strictly ahead of the key of
    [y] in the requested order.  Elements whose keys are tied keep the order
    they had in the input, which is what [list.sort(..., reverse=True)]
    guarantees. *)
Section StableSort.
Context {A : Type} (before : A -> A -> bool).

Fixpoint insert_stable (x : A) (l : list A) : list A :=
  match l with
  | [] => [x]
  | y :: r => if before y x then y :: insert_stable x r else x :: l
  end.

Definition sort_stable (l : list A) : list A :=
  fold_right insert_stable [] l.
End StableSort.

(** ** business/business_by_phone.py *)

(** A timestamp is strictly later than another.  Python compares two
    strings character by character; a comparison with [None] raises, so this
    test is only consulted between strings, and [None] is put below every
    string to keep it total. *)
Definition later (a b : option string) : bool :=
  match a, b with
  | Some x, Some y => String.ltb y x
  | Some _, None => true
  | None, _ => false
  end.

(** The sort key is [created_at], most recent first. *)
Definition newer (x y : Listing) : bool :=
  later (Listing.created_at x) (Listing.created_at y).

Definition no_timestamp (r : Listing) : bool :=
  match Listing.created_at r with None => true | Some _ => false end.

(** The sort raises [TypeError] when it has to compare a [None] key: with two
    listings or more, every one of them is compared at least once. *)
Definition sort_raises (l : list Listing) : bool :=
  (1 <? List.length l)%nat && existsb no_timestamp l.

(** The row test of the loop of [get_businesses_by_phone]. *)
Definition phone_matches (normalized_phone : string) (row : Listing) : bool :=
  String.eqb normalized_phone
    (normalize_phone (Some (Py.or_empty (Listing.phone_number row)))).

(** [get_businesses_by_phone]; the [try]/[except: pass] around the sort
    returns the list as the sort left it. *)
Definition get_businesses_by_phone (W : World) (db : Store)
  (phone : option string) : list Listing :=
  let normalized_phone := normalize_phone phone in
  if negb (Py.truthy normalized_phone) then []
  else
    let matching_businesses :=
      List.filter (phone_matches normalized_phone) db in
    if sort_raises matching_businesses
    then aborted_sort W matching_businesses
    else sort_stable newer matching_businesses.

(** [SELECT * FROM google_maps_listings WHERE id = ? LIMIT 1] *)
Definition get_business_by_id (db : Store) (business_id : Z) : option Listing :=
  List.find (fun r => match Listing.id r with
                      | Some i => Z.eqb i business_id
                      | None => false
                      end) db.

(** ** business/business_update.py *)

Definition ALLOWED_FIELDS : list string :=
  ["name"; "address"; "phone_number"; "website"; "category";
   "subcategory"; "area"; "city"; "state"].

(** The value kept for an allowed key: [None] becomes the empty string, a
    string is stripped, a phone number is also normalized. *)
Definition clean_update (k : string) (v : option string) : string :=
  match v with
  | None => EmptyString
  | Some s =>
      if String.eqb k "phone_number"
      then normalize_phone (Some (Py.strip s))
      else Py.strip s
  end.

(** [filtered_updates] *)
Definition filter_updates (updates : gmap string (option string))
  : gmap string string :=
  map_imap (fun k v => if Py.mem k ALLOWED_FIELDS
                       then Some (clean_update k v) else None) updates.

(** [UPDATE ... SET k = ?, ...] on one row. *)
Definition set_columns (f : gmap string string) (r : Listing) : Listing :=
  let col k old := match f !! k with Some v => Some v | None => old end in
  {| Listing.rowid := Listing.rowid r;
     Listing.id := Listing.id r;
     Listing.name := col "name" (Listing.name r);
     Listing.address := col "address" (Listing.address r);
     Listing.phone_number := col "phone_number" (Listing.phone_number r);
     Listing.website := col "website" (Listing.website r);
     Listing.category := col "category" (Listing.category r);
     Listing.subcategory := col "subcategory" (Listing.subcategory r);
     Listing.city := col "city" (Listing.city r);
     Listing.state := col "state" (Listing.state r);
     Listing.area := col "area" (Listing.area r);
     Listing.reviews_count := Listing.reviews_count r;
     Listing.reviews_average := Listing.reviews_average r;
     Listing.created_at := Listing.created_at r |}.

Definition has_id (business_id : Z) (r : Listing) : bool :=
  match Listing.id r with Some i => Z.eqb i business_id | None => false end.

Definition has_rowid (business_id : Z) (r : Listing) : bool :=
  Z.eqb (Z.pos (Listing.rowid r)) business_id.

(** The rowids found by id: the row with that [id], else the row with that
    rowid. *)
Definition rowids_by_id (db : Store) (business_id : option Z) : list positive :=
  match business_id with
  | None => []
  | Some i =>
      match List.find (has_id i) db with
      | Some r => [Listing.rowid r]
      | None =>
          match List.find (has_rowid i) db with
          | Some r => [Listing.rowid r]
          | None => []
          end
      end
  end.

(** The rowids found by phone number, tried when the id found none. *)
Definition rowids_by_phone (db : Store) (phone_number : option string)
  : list positive :=
  match phone_number with
  | Some p =>
      if Py.truthy p then
        let normalized_phone := normalize_phone (Some p) in
        if Py.truthy normalized_phone then
          List.map Listing.rowid
            (List.filter
               (fun r => String.eqb
                           (normalize_phone
                              (Some (Py.or_empty (Listing.phone_number r))))
                           normalized_phone) db)
        else []
      else []
  | None => []
  end.

(** [matching_rowids]: by id first, by phone number when the id found
    nothing. *)
Definition find_matching_rowids (db : Store) (business_id : option Z)
  (phone_number : option string) : list positive :=
  match rowids_by_id db business_id with
  | [] => rowids_by_phone db phone_number
  | by_id => by_id
  end.

Definition rowid_in (ids : list positive) (r : Listing) : bool :=
  existsb (Pos.eqb (Listing.rowid r)) ids.

(** [UPDATE ... WHERE rowid IN (...)]: the new table and [cur.rowcount]. *)
Definition sql_update (f : gmap string string) (ids : list positive)
  (db : Store) : Store * nat :=
  (List.map (fun r => if rowid_in ids r then set_columns f r else r) db,
   List.length (List.filter (rowid_in ids) db)).

Section Storage.
Context (W : World).

(** [update_business(business_id, updates, phone_number)]: the result and
    the table afterwards. *)
Definition update_business (db : Store) (business_id : option Z)
  (updates : option (gmap string (option string)))
  (phone_number : option string) : bool * Store :=
  match updates with
  | None => (false, db)
  | Some updates =>
      if decide (updates = ∅) then (false, db)
      else
        let filtered_updates := filter_updates updates in
        if decide (filtered_updates = ∅) then (false, db)
        else
          let matching_rowids :=
            find_matching_rowids db business_id phone_number in
          match matching_rowids with
          | [] => (false, db)
          | _ =>
              match update_error W db filtered_updates matching_rowids with
              | Some _ => (false, db)       (* rollback *)
              | None =>
                  let '(db', rows_affected) :=
                    sql_update filtered_updates matching_rowids db in
                  ((0 <? rows_affected)%nat, db')   (* commit *)
              end
          end
  end.
End Storage.

(** ** business/business_add.py *)

(** [LOWER(a) = LOWER(b)] *)
Definition eq_nocase (a b : string) : bool :=
  String.eqb (Py.lower a) (Py.lower b).

(** The [WHERE] clause of the duplicate check: same name, address, area,
    city and state, case-insensitively; a NULL name matches nothing, the
    other columns go through [IFNULL(col, '')]. *)
Definition same_place (name address area city state : string) (r : Listing)
  : bool :=
  match Listing.name r with
  | None => false
  | Some n =>
      eq_nocase n name
      && eq_nocase (Py.or_empty (Listing.address r)) address
      && eq_nocase (Py.or_empty (Listing.area r)) area
      && eq_nocase (Py.or_empty (Listing.city r)) city
      && eq_nocase (Py.or_empty (Listing.state r)) state
  end.

(** The rowid SQLite gives an inserted row: one more than the largest in
    use, 1 in an empty table. *)
Definition next_rowid (db : Store) : positive :=
  match db with
  | [] => 1%positive
  | _ => Pos.succ (fold_right Pos.max 1%positive (List.map Listing.rowid db))
  end.

Section Insert.
Context (W : World).

(** Modelled from the spec: the table declaration is not among the
    sources; [id] is the integer identity the store assigns on insert
    (section 3, "stable identity once assigned"), taken to be the rowid, so
    that [cur.lastrowid] is the new listing's [id]. *)
Definition new_row (db : Store)
  (name address normalized_phone website category subcategory city state
     area : string) : Listing :=
  {| Listing.rowid := next_rowid db;
     Listing.id := Some (Z.pos (next_rowid db));
     Listing.name := Some name;
     Listing.address := Some address;
     Listing.phone_number := Some normalized_phone;
     Listing.website := Some website;
     Listing.category := Some category;
     Listing.subcategory := Some subcategory;
     Listing.city := Some city;
     Listing.state := Some state;
     Listing.area := Some area;
     Listing.reviews_count := Some 0;
     Listing.reviews_average := None;
     Listing.created_at := Some (utcnow W db) |}.

(** [add_business]: the identifier returned ([None] when it is falsy) or
    the exception raised, and the table afterwards.  A rowid is positive,
    so [cur.lastrowid] is never 0 after an insert and the second look-up of
    the function is not reached. *)
Definition add_business (db : Store)
  (name address phone_number website category subcategory city state
     area : string) : outcome (option Z) * Store :=
  let normalized_phone :=
    if Py.truthy phone_number then normalize_phone (Some phone_number)
    else EmptyString in
  let rows := List.filter (same_place name address area city state) db in
  match List.find
          (fun r => String.eqb normalized_phone
                      (normalize_phone
                         (Some (Py.or_empty (Listing.phone_number r)))))
          rows with
  | Some r => (Ret (Listing.id r), db)
  | None =>
      let row := new_row db name address normalized_phone website category
                   subcategory city state area in
      match insert_error W db row with
      | Some msg => (Raise msg, db)
      | None =>
          let new_id := Z.pos (Listing.rowid row) in
          (Ret (if Z.eqb new_id 0 then None else Some new_id),
           (db ++ [row])%list)
      end
  end.
End Insert.

(** ** app.py: intent classification *)

Inductive Intent : Type :=
| Greeting | Search | Show | Update | Add | General.

Definition greetings : list string :=
  ["hi"; "hello"; "hey"; "good morning"; "good afternoon";
   "good evening"; "howdy"; "hola"; "greetings"; "sup";
   "what's up"; "yo"; "namaste"].

(** [any(kw in text for kw in kws)], as the [for]/[return] loops compute it *)
Definition contains_any (kws : list string) (text : string) : bool :=
  existsb (fun kw => Py.contains kw text) kws.

Definition is_greeting (text : string) : bool :=
  let text_lower := Py.strip (Py.lower text) in
  contains_any greetings text_lower.

Definition search_keywords : list string :=
  ["search for"; "find a"; "looking for"; "need a"; "want a";
   "search"; "find"; "looking"; "recommend"; "suggest";
   "near me"; "best"; "top"; "where can i find"].

Definition show_keywords : list string :=
  ["show my business"; "view my business"; "display business";
   "get my business"; "my business details"; "business info"].

Definition update_keywords : list string :=
  ["update my business"; "edit details"; "change my business";
   "modify business"; "update business"; "edit business";
   "change details"; "update details"; "edit my business";
   "modify my business"; "fix my business"; "correct details"].

Definition add_keywords : list string :=
  ["add business"; "register my business"; "create business";
   "new business"; "add my business"; "register business";
   "list my business"; "add a business"; "register a business";
   "add new business"; "create new business"].

Definition detect_intent (text : string) : Intent :=
  let text_lower := Py.strip (Py.lower text) in
  if is_greeting text_lower then Greeting
  else if contains_any search_keywords text_lower then Search
  else if contains_any show_keywords text_lower then Show
  else if contains_any update_keywords text_lower then Update
  else if contains_any add_keywords text_lower then Add
  else General.

(** The classifier as the specification words it: an ordered table of
    (phrase set, intent) rules over the lowercased, trimmed text, the first
    rule with a phrase in the text wins, [General] when none does. *)
Definition intent_rules : list (list string * Intent) :=
  [(greetings, Greeting); (search_keywords, Search); (show_keywords, Show);
   (update_keywords, Update); (add_keywords, Add)].

Fixpoint first_match (rules : list (list string * Intent)) (text : string)
  : Intent :=
  match rules with
  | [] => General
  | (phrases, intent) :: rest =>
      if contains_any phrases text then intent else first_match rest text
  end.

Definition classify (text : string) : Intent :=
  first_match intent_rules (Py.strip (Py.lower text)).

(** ** app.py: the search corpus and the spelling corrector *)

(** [list(set(l))]: the distinct elements.  The order Python gives them is
    unspecified; only [get_close_matches] is handed the list as a whole. *)
Fixpoint distinct (l : list string) : list string :=
  match l with
  | [] => []
  | x :: r => if Py.mem x r then distinct r else x :: distinct r
  end.

(** The non-NULL, non-empty values of a text column. *)
Definition column_values (col : Listing -> option string) (db : Store)
  : list string :=
  flat_map (fun r => match col r with
                     | Some s => if Py.truthy s then [s] else []
                     | None => []
                     end) db.

(** The entries a business name contributes: the lowercased name, and its
    first word when that is longer than two characters. *)
Definition name_terms (n : string) : list string :=
  let name := Py.lower n in
  let first_word :=
    match Py.split name with w :: _ => w | [] => name end in
  if (2 <? Py.len first_word)%nat then [name; first_word] else [name].

Definition get_all_searchable_terms (db : Store) : list string :=
  let categories := List.map Py.lower (column_values Listing.category db) in
  let cities := List.map Py.lower (column_values Listing.city db) in
  let names := flat_map name_terms (column_values Listing.name db) in
  distinct (categories ++ cities ++ names)%list.

(** [query and query[0].isupper()] *)
Definition starts_upper (query : string) : bool :=
  match query with
  | String c _ => Py.isupper c
  | EmptyString => false
  end.

Section Spelling.
Context (W : World).

(** The per-word pass of [correct_spelling]: the corrected words and
    whether any was replaced. *)
Fixpoint correct_words (all_terms : list string) (words : list string)
  : list string * bool :=
  match words with
  | [] => ([], false)
  | word :: rest =>
      let '(corrected_words, any_corrected) :=
        correct_words all_terms rest in
      if (Py.len word <? 3)%nat then (word :: corrected_words, any_corrected)
      else if existsb (fun term => Py.contains word term) all_terms
      then (word :: corrected_words, any_corrected)
      else
        match get_close_matches W word all_terms 1 with
        | m :: _ => (m :: corrected_words, true)
        | [] => (word :: corrected_words, any_corrected)
        end
  end.

(** [correct_spelling(query)], over the corpus of the table:
    [(corrected_query, was_corrected, suggestions)]. *)
Definition correct_spelling (db : Store) (query : string)
  : string * bool * list string :=
  let query_lower := Py.strip (Py.lower query) in
  let all_terms := get_all_searchable_terms db in
  match all_terms with
  | [] => (query, false, [])
  | _ =>
    if Py.mem query_lower all_terms then (query, false, [])
    else if existsb (fun term => Py.contains query_lower term
                                 || Py.contains term query_lower) all_terms
    then (query, false, [])
    else if existsb (fun word => (3 <=? Py.len word)%nat
                                 && Py.mem word all_terms)
              (Py.split query_lower)
    then (query, false, [])
    else
      match get_close_matches W query_lower all_terms 3 with
      | m :: ms =>
          let corrected := if starts_upper query then Py.title m else m in
          (corrected, true, m :: ms)
      | [] =>
          let words := Py.split query_lower in
          if (1 <? List.length words)%nat then
            let '(corrected_words, any_corrected) :=
              correct_words all_terms words in
            if any_corrected then
              let corrected := Py.join " " corrected_words in
              let corrected :=
                if starts_upper query then Py.title corrected
                else corrected in
              (corrected, true, [corrected])
            else (query, false, [])
          else (query, false, [])
      end
  end.
End Spelling.

(** ** app.py: the query parser *)

Definition stop_words : list string :=
  ["best"; "top"; "near"; "me"; "in"; "the"; "a"; "an"; "find"; "search";
   "for"; "looking"; "need"; "want"; "good"; "great"].

(** One turn of the stop-word loop. *)
Definition remove_stop_word (q word : string) : string :=
  let q := Py.replace (" " ++ word ++ " ") " " q in
  let q := if Py.startswith (word ++ " ") q
           then Py.drop (Py.len word + 1) q else q in
  let q := if Py.endswith (" " ++ word) q
           then Py.take (Py.len q - (Py.len word + 1)) q else q in
  q.

Definition parse_search_query (user_query : string) : string * string :=
  let q := Py.strip (Py.lower user_query) in
  let q := fold_left remove_stop_word stop_words q in
  let q := Py.join " " (Py.split q) in
  let words := Py.split q in
  match words with
  | [] => (EmptyString, EmptyString)
  | [w] => (w, EmptyString)
  | _ =>
      let location := List.last words EmptyString in
      let keyword := Py.join " " (List.removelast words) in
      (Py.strip keyword, Py.strip location)
  end.

(** ** app.py: the tiered local search *)

(** [text LIKE pattern] on lowercased operands: [%] stands for any run of
    characters, [_] for any one character. *)
Fixpoint like (pattern text : string) : bool :=
  match pattern with
  | EmptyString => negb (Py.truthy text)
  | String p pattern' =>
      if Ascii.eqb p "%" then
        (fix any_run (t : string) : bool :=
           like pattern' t ||
           match t with
           | EmptyString => false
           | String _ t' => any_run t'
           end) text
      else
        match text with
        | EmptyString => false
        | String c text' =>
            (Ascii.eqb p "_" || Ascii.eqb p c) && like pattern' text'
        end
  end.

(** [LOWER(col) LIKE LOWER(?)] with the parameter [%term%]; NULL in the
    column makes the comparison NULL, which a [WHERE] clause built of [OR] and
    [AND] treats as false. *)
Definition col_like (term : string) (col : option string) : bool :=
  match col with
  | None => false
  | Some v => like (Py.lower ("%" ++ term ++ "%")) (Py.lower v)
  end.

Definition keyword_hit (keyword : string) (r : Listing) : bool :=
  col_like keyword (Listing.name r)
  || col_like keyword (Listing.category r)
  || col_like keyword (Listing.subcategory r).

Definition location_hit (location : string) (r : Listing) : bool :=
  col_like location (Listing.city r) || col_like location (Listing.address r).

Definition raw_hit (user_query : string) (r : Listing) : bool :=
  col_like user_query (Listing.name r)
  || col_like user_query (Listing.category r)
  || col_like user_query (Listing.city r).

(** Comparison of nullable numbers as [ORDER BY] sees them: NULL is below
    every value. *)
Definition compare_null {A : Type} (cmp : A -> A -> comparison)
  (a b : option A) : comparison :=
  match a, b with
  | None, None => Eq
  | None, Some _ => Lt
  | Some _, None => Gt
  | Some x, Some y => cmp x y
  end.

(** [ORDER BY reviews_average DESC, reviews_count DESC]: [x] sorts strictly
    ahead of [y]. *)
Definition better_rated (x y : Listing) : bool :=
  match compare_null Qcompare (Listing.reviews_average x)
          (Listing.reviews_average y) with
  | Gt => true
  | Lt => false
  | Eq =>
      match compare_null Z.compare (Listing.reviews_count x)
              (Listing.reviews_count y) with
      | Gt => true
      | _ => false
      end
  end.

(** [SELECT * ... WHERE hit ORDER BY reviews_average DESC, reviews_count DESC
    LIMIT 5]; rows the ordering ties keep their scan order. *)
Definition top5 (hit : Listing -> bool) (db : Store) : list Listing :=
  firstn 5 (sort_stable better_rated (List.filter hit db)).

Definition tier_a (db : Store) (keyword location : string) : list Listing :=
  top5 (fun r => keyword_hit keyword r && location_hit location r) db.
Definition tier_b (db : Store) (keyword : string) : list Listing :=
  top5 (keyword_hit keyword) db.
Definition tier_c (db : Store) (location : string) : list Listing :=
  top5 (location_hit location) db.
Definition tier_d (db : Store) (user_query : string) : list Listing :=
  top5 (raw_hit user_query) db.

(** [not results] *)
Definition is_empty {A : Type} (l : list A) : bool :=
  match l with [] => true | _ => false end.

Section Search.
Context (W : World).

(** The keyword and location after spelling correction, and whether
    either was corrected. *)
Definition corrected_terms (db : Store) (user_query : string)
  (use_spelling_correction : bool) : string * string * bool :=
  let '(keyword, location) := parse_search_query user_query in
  let '(corrected_keyword, was_corrected) :=
    if use_spelling_correction && Py.truthy keyword then
      let '(corrected_kw, kw_corrected, _) :=
        correct_spelling W db keyword in
      if kw_corrected then (corrected_kw, true) else (keyword, false)
    else (keyword, false) in
  let '(corrected_location, was_corrected) :=
    if use_spelling_correction && Py.truthy location then
      let '(corrected_loc, loc_corrected, _) :=
        correct_spelling W db location in
      if loc_corrected then (corrected_loc, true)
      else (location, was_corrected)
    else (location, was_corrected) in
  (corrected_keyword, corrected_location, was_corrected).

(** [smart_search_business]:
    [(results, keyword, location, was_corrected)]. *)
Definition smart_search_business (db : Store) (user_query : string)
  (use_spelling_correction : bool)
  : list Listing * string * string * bool :=
  let '(corrected_keyword, corrected_location, was_corrected) :=
    corrected_terms db user_query use_spelling_correction in
  let results := [] in
  let results :=
    if Py.truthy corrected_keyword && Py.truthy corrected_location
    then tier_a db corrected_keyword corrected_location
    else results in
  let results :=
    if is_empty results && Py.truthy corrected_keyword
    then tier_b db corrected_keyword
    else results in
  let results :=
    if is_empty results && Py.truthy corrected_location
    then tier_c db corrected_location
    else results in
  let results :=
    if is_empty results then tier_d db user_query else results in
  (results, corrected_keyword, corrected_location, was_corrected).
End Search.

(** ** app.py: the conversation state *)

Inductive Mode : Type := ModeShow | ModeUpdate | ModeAdd | ModeSearch.

(** The four entries of [st.session_state] the chatbot owns.  [chat_mode] is
    [None] when no flow is active. *)
Record Session : Type := {
  chat_mode : option Mode;
  chat_step : nat;
  chat_data : gmap string string;
  current_business : option Listing
}.

Definition initial_session : Session :=
  {| chat_mode := None; chat_step := 0%nat; chat_data := ∅;
     current_business := None |}.

Definition reset_chat_flow (s : Session) : Session :=
  {| chat_mode := None; chat_step := 0%nat; chat_data := ∅;
     current_business := None |}.

Definition set_mode (m : option Mode) (s : Session) : Session :=
  {| chat_mode := m; chat_step := chat_step s; chat_data := chat_data s;
     current_business := current_business s |}.
Definition set_step (n : nat) (s : Session) : Session :=
  {| chat_mode := chat_mode s; chat_step := n; chat_data := chat_data s;
     current_business := current_business s |}.
Definition set_data (k v : string) (s : Session) : Session :=
  {| chat_mode := chat_mode s; chat_step := chat_step s;
     chat_data := <[k := v]> (chat_data s);
     current_business := current_business s |}.
Definition set_business (b : option Listing) (s : Session) : Session :=
  {| chat_mode := chat_mode s; chat_step := chat_step s;
     chat_data := chat_data s; current_business := b |}.

(** [data.get(k, "")] *)
Definition data_get (data : gmap string string) (k : string) : string :=
  default EmptyString (data !! k).

(** ** app.py: what the assistant answers

    A reply is kept as the template chosen and the values interpolated in
    it, not as the rendered text. *)

(** [biz.get(k) or 'Not set'] for the keys the menus read. *)
Definition biz_get (biz : Listing) (k : string) : option string :=
  if String.eqb k "name" then Listing.name biz
  else if String.eqb k "address" then Listing.address biz
  else if String.eqb k "phone_number" then Listing.phone_number biz
  else if String.eqb k "website" then Listing.website biz
  else if String.eqb k "category" then Listing.category biz
  else if String.eqb k "subcategory" then Listing.subcategory biz
  else if String.eqb k "city" then Listing.city biz
  else if String.eqb k "state" then Listing.state biz
  else if String.eqb k "area" then Listing.area biz
  else None.

Definition or_not_set (v : option string) : string :=
  match v with
  | Some s => if Py.truthy s then s else "Not set"
  | None => "Not set"
  end.

(** The seven "Current:" entries of the update menu, in menu order. *)
Definition menu_fields : list string :=
  ["name"; "address"; "phone_number"; "website"; "category"; "city"; "state"].

Definition update_menu (biz : Listing) : list (string * string) :=
  List.map (fun k => (k, or_not_set (biz_get biz k))) menu_fields.

Inductive Response : Type :=
| RGreeting
| RAskPhoneShow
| RAskPhoneUpdate
| RAskName
| RFound (results : list Listing) (keyword location : string)
    (was_corrected : bool)
| ROnline (query keyword location : string)
    (ranked : list online_result)
| RNoResults (query : string) (suggestions : list string)
| ROnlineFailed (query msg : string)
| RAskSearch (categories : list string)
| RCancelled
| RInvalidPhone
| RNotFound (phone : string)
| RBusinessFound (biz : Listing)
| RUpdateNotFound (phone : string)
| RUpdateMenu (biz : Listing) (menu : list (string * string))
| RUpdateComplete (biz : option Listing)
| RBadField
| RAskValue (field_key current_value : string)
| REmptyValue
| RNoField
| RUpdated (field_key new_value : string) (biz : Listing)
    (menu : list (string * string))
| RUpdateFailed (field_key : string)
| RUpdateError (msg : string)
| RBadName
| RAskPhone (name : string)
| RBadPhone
| RAskAddress (normalized : string)
| RBadAddress
| RAskWebsite (address : string)
| RAskCategory
| RBadCategory
| RAskCity (category : string)
| RAskState
| RAdded (new_id : Z) (data : gmap string string)
| RAddFailed
| RAddError (msg : string)
| RBadQuery.

(** ** app.py: the flow handlers

    A handler takes the utterance, the table and the session, and gives back
    what it returns (a reply, [None], or an exception that escapes it) with
    the table and the session as it leaves them. *)

Abbreviation Turn := (outcome (option Response) * Store * Session)%type.

Definition reply (r : Response) (db : Store) (s : Session) : Turn :=
  (Ret (Some r), db, s).

(** A normalized phone is plausible when it has at least six digits. *)
Definition plausible (normalized : string) : bool :=
  Py.truthy normalized && (6 <=? Py.len normalized)%nat.

Definition cancel_words : list string :=
  ["cancel"; "exit"; "quit"; "stop"; "nevermind"].

Definition done_words : list string :=
  ["done"; "finish"; "exit"; "no"; "cancel"].

Definition website_skip_words : list string :=
  ["skip"; "none"; "n/a"; "-"; ""].

Definition place_skip_words : list string := ["skip"; "none"].

(** [field_mapping] of [handle_update_flow]. *)
Definition field_mapping (field_input : string) : option string :=
  if String.eqb field_input "1" then Some "name"
  else if String.eqb field_input "name" then Some "name"
  else if String.eqb field_input "2" then Some "address"
  else if String.eqb field_input "address" then Some "address"
  else if String.eqb field_input "3" then Some "phone"
  else if String.eqb field_input "phone" then Some "phone_number"
  else if String.eqb field_input "phone number" then Some "phone_number"
  else if String.eqb field_input "4" then Some "website"
  else if String.eqb field_input "website" then Some "website"
  else if String.eqb field_input "5" then Some "category"
  else if String.eqb field_input "category" then Some "category"
  else if String.eqb field_input "6" then Some "city"
  else if String.eqb field_input "city" then Some "city"
  else if String.eqb field_input "7" then Some "state"
  else if String.eqb field_input "state" then Some "state"
  else None.

(** The message of the [AttributeError] raised by [None.get(...)]. *)
Definition none_has_no_get : string :=
  "'NoneType' object has no attribute 'get'".

(** [new_id] is truthy. *)
Definition truthy_id (new_id : option Z) : option Z :=
  match new_id with
  | Some i => if Z.eqb i 0 then None else Some i
  | None => None
  end.

(** The [for ... else] of the refresh: the listing with the same [id], else
    the first one. *)
Definition same_business (business_id : option Z) (updated : list Listing)
  : option Listing :=
  match List.find (fun b => if decide (Listing.id b = business_id)
                            then true else false) updated with
  | Some b => Some b
  | None => List.head updated
  end.

Section Flows.
Context (W : World).

Definition handle_show_flow (user_input : string) (db : Store) (s : Session)
  : Turn :=
  match chat_step s with
  | 1%nat =>
      let phone := Py.strip user_input in
      let normalized := normalize_phone (Some phone) in
      if negb (plausible normalized) then reply RInvalidPhone db s
      else
        match get_businesses_by_phone W db (Some phone) with
        | [] => reply (RNotFound phone) db (reset_chat_flow s)
        | b :: _ =>
            reply (RBusinessFound b) db
              (set_business (Some b) (reset_chat_flow s))
        end
  | _ => (Ret None, db, s)
  end.

(** Step 3 of the update flow, inside its [try]: the write by id, the
    fall-back by phone, and on success the refresh and the loop back to
    step 2. *)
Definition apply_update (field_key new_value : string) (db : Store)
  (s : Session) : Turn :=
  let biz := current_business s in
  let updates : gmap string (option string) :=
    {[ field_key := Some new_value ]} in
  let business_id :=
    match biz with Some b => Listing.id b | None => None end in
  let phone_for_update := chat_data s !! "phone" in
  let '(success, db) :=
    match business_id with
    | Some i => update_business W db (Some i) (Some updates) None
    | None => (false, db)
    end in
  let '(success, db) :=
    if negb success && Py.truthy (Py.or_empty phone_for_update)
    then update_business W db None (Some updates) phone_for_update
    else (success, db) in
  if success then
    let updated_businesses :=
      if Py.truthy (Py.or_empty phone_for_update)
      then get_businesses_by_phone W db phone_for_update else [] in
    let '(biz, s) :=
      match same_business business_id updated_businesses with
      | Some b => (Some b, set_business (Some b) s)
      | None => (biz, s)
      end in
    let s := set_step 2 s in
    match biz with
    | Some b =>
        reply (RUpdated field_key new_value b (update_menu b)) db s
    | None =>
        reply (RUpdateError none_has_no_get) db (reset_chat_flow s)
    end
  else reply (RUpdateFailed field_key) db s.

Definition handle_update_flow (user_input : string) (db : Store)
  (s : Session) : Turn :=
  match chat_step s with
  | 1%nat =>
      let phone := Py.strip user_input in
      let normalized := normalize_phone (Some phone) in
      if negb (plausible normalized) then reply RInvalidPhone db s
      else
        match get_businesses_by_phone W db (Some phone) with
        | [] => reply (RUpdateNotFound phone) db (reset_chat_flow s)
        | biz :: _ =>
            let s := set_business (Some biz) s in
            let s := set_data "phone" phone s in
            let s := set_step 2 s in
            reply (RUpdateMenu biz (update_menu biz)) db s
        end
  | 2%nat =>
      let field_input := Py.lower (Py.strip user_input) in
      if Py.mem field_input done_words then
        let s := reset_chat_flow s in
        reply (RUpdateComplete (current_business s)) db s
      else
        match field_mapping field_input with
        | None => reply RBadField db s
        | Some field_key =>
            let s := set_data "update_field" field_key s in
            let s := set_step 3 s in
            match current_business s with
            | None => (Raise none_has_no_get, db, s)
            | Some biz =>
                reply (RAskValue field_key
                         (or_not_set (biz_get biz field_key))) db s
            end
        end
  | 3%nat =>
      let new_value := Py.strip user_input in
      let field_key := chat_data s !! "update_field" in
      if negb (Py.truthy new_value) then reply REmptyValue db s
      else if negb (Py.truthy (Py.or_empty field_key))
      then reply RNoField db (reset_chat_flow s)
      else apply_update (Py.or_empty field_key) new_value db s
  | _ => (Ret None, db, s)
  end.

(** [x if x and x.lower() not in ["skip", "none"] else ""] *)
Definition place_value (x : string) : string :=
  if Py.truthy x && negb (Py.mem (Py.lower x) place_skip_words)
  then x else EmptyString.

(** Step 7 of the add flow, after the state has been stored. *)
Definition submit_business (db : Store) (s : Session) : Turn :=
  let data := chat_data s in
  match add_business W db
          (data_get data "name") (data_get data "address")
          (data_get data "phone_number") (data_get data "website")
          (data_get data "category") EmptyString
          (data_get data "city") (data_get data "state") EmptyString with
  | (Raise msg, db) => reply (RAddError msg) db (reset_chat_flow s)
  | (Ret new_id, db) =>
      match truthy_id new_id with
      | Some i =>
          let new_businesses :=
            get_businesses_by_phone W db
              (Some (data_get data "phone_number")) in
          let s := set_business (List.head new_businesses) s in
          reply (RAdded i data) db (reset_chat_flow s)
      | None => reply RAddFailed db (reset_chat_flow s)
      end
  end.

Definition handle_add_flow (user_input : string) (db : Store) (s : Session)
  : Turn :=
  match chat_step s with
  | 1%nat =>
      let name := Py.strip user_input in
      if negb (Py.truthy name) || (Py.len name <? 2)%nat
      then reply RBadName db s
      else reply (RAskPhone name) db (set_step 2 (set_data "name" name s))
  | 2%nat =>
      let phone := Py.strip user_input in
      let normalized := normalize_phone (Some phone) in
      if negb (plausible normalized) then reply RBadPhone db s
      else reply (RAskAddress normalized) db
             (set_step 3 (set_data "phone_number" normalized s))
  | 3%nat =>
      let address := Py.strip user_input in
      if negb (Py.truthy address) || (Py.len address <? 5)%nat
      then reply RBadAddress db s
      else reply (RAskWebsite address) db
             (set_step 4 (set_data "address" address s))
  | 4%nat =>
      let website := Py.strip user_input in
      let s := if Py.mem (Py.lower website) website_skip_words
               then set_data "website" EmptyString s
               else set_data "website" website s in
      reply RAskCategory db (set_step 5 s)
  | 5%nat =>
      let category := Py.strip user_input in
      if negb (Py.truthy category) || (Py.len category <? 2)%nat
      then reply RBadCategory db s
      else reply (RAskCity category) db
             (set_step 6 (set_data "category" category s))
  | 6%nat =>
      let city := Py.strip user_input in
      reply RAskState db (set_step 7 (set_data "city" (place_value city) s))
  | 7%nat =>
      let state := Py.strip user_input in
      submit_business db (set_data "state" (place_value state) s)
  | _ => (Ret None, db, s)
  end.
End Flows.

(** ** app.py: the search flow, the dispatcher and the entry point *)

(** First occurrences, in scan order ([SELECT DISTINCT]). *)
Fixpoint distinct_scan (seen l : list string) : list string :=
  match l with
  | [] => []
  | x :: r =>
      if Py.mem x seen then distinct_scan seen r
      else x :: distinct_scan (x :: seen) r
  end.

(** [get_suggested_categories]: up to 15 distinct categories. *)
Definition get_suggested_categories (db : Store) : list string :=
  firstn 15 (distinct_scan [] (column_values Listing.category db)).

(** The query sent online. *)
Definition online_query (keyword location fallback : string) : string :=
  if Py.truthy keyword && Py.truthy location
  then keyword ++ " in " ++ location
  else if Py.truthy keyword then keyword
  else fallback.

Definition remove_words : list string :=
  ["search for"; "find a"; "looking for"; "need a"; "want a";
   "search"; "find"; "looking"; "recommend"; "suggest";
   "where can i find"; "best"; "top"; "near me"].

(** The query left once the intent words are taken out of the utterance. *)
Definition strip_intent_words (user_input : string) : string :=
  let search_query := Py.strip (Py.lower user_input) in
  let search_query :=
    fold_left (fun q word => Py.replace word EmptyString q)
      remove_words search_query in
  Py.strip (Py.join " " (Py.split search_query)).

Section Engine.
Context (W : World).

Definition handle_search_flow (user_input : string) (db : Store)
  (s : Session) : Turn :=
  match chat_step s with
  | 1%nat =>
      let query := Py.strip user_input in
      if negb (Py.truthy query) || (Py.len query <? 2)%nat
      then reply RBadQuery db s
      else
        let s := set_data "search_query" query s in
        let '(db_results, keyword, location, was_corrected) :=
          smart_search_business W db query true in
        if negb (is_empty db_results) then
          reply (RFound (firstn 5 db_results) keyword location
                   was_corrected) db (reset_chat_flow s)
        else
          let s := set_step 2 s in
          match search_online W (online_query keyword location query) with
          | inr (r :: rs) =>
              let ranked_results := rank_online_results W (r :: rs) in
              reply (ROnline query keyword location
                       (firstn 5 ranked_results)) db (reset_chat_flow s)
          | inr [] =>
              let s := reset_chat_flow s in
              let '(_, _, suggestions) := correct_spelling W db query in
              reply (RNoResults query (firstn 3 suggestions)) db s
          | inl msg => reply (ROnlineFailed query msg) db (reset_chat_flow s)
          end
  | _ => (Ret None, db, s)
  end.

Definition handle_active_flow (user_input : string) (db : Store)
  (s : Session) : Turn :=
  if Py.mem (Py.strip (Py.lower user_input)) cancel_words
  then reply RCancelled db (reset_chat_flow s)
  else
    match chat_mode s with
    | Some ModeShow => handle_show_flow W user_input db s
    | Some ModeUpdate => handle_update_flow W user_input db s
    | Some ModeAdd => handle_add_flow W user_input db s
    | Some ModeSearch => handle_search_flow user_input db s
    | None => (Ret None, db, s)
    end.

(** The direct search of an idle session; it leaves the session as it
    is. *)
Definition direct_search (user_input : string) (db : Store) (s : Session)
  : Turn :=
  let search_query := strip_intent_words user_input in
  if Py.truthy search_query && (2 <=? Py.len search_query)%nat then
    let '(db_results, keyword, location, was_corrected) :=
      smart_search_business W db search_query true in
    if negb (is_empty db_results) then
      reply (RFound (firstn 5 db_results) keyword location was_corrected)
        db s
    else
      match search_online W
              (online_query keyword location search_query) with
      | inr (r :: rs) =>
          reply (ROnline search_query keyword location
                   (firstn 5 (rank_online_results W (r :: rs)))) db s
      | inr [] => reply (RNoResults search_query []) db s
      | inl msg => reply (ROnlineFailed search_query msg) db s
      end
  else reply (RAskSearch (firstn 8 (get_suggested_categories db))) db s.

Definition process_chatbot_response (user_input : string) (db : Store)
  (s : Session) : Turn :=
  match chat_mode s with
  | Some _ => handle_active_flow user_input db s
  | None =>
      match detect_intent user_input with
      | Greeting => reply RGreeting db s
      | Show =>
          reply RAskPhoneShow db (set_step 1 (set_mode (Some ModeShow) s))
      | Update =>
          reply RAskPhoneUpdate db
            (set_step 1 (set_mode (Some ModeUpdate) s))
      | Add => reply RAskName db (set_step 1 (set_mode (Some ModeAdd) s))
      | Search => direct_search user_input db s
      | General => (Ret None, db, s)
      end
  end.

(** The table and the session after a turn, whatever was answered. *)
Definition turn (st : Store * Session) (user_input : string)
  : Store * Session :=
  let '(_, db, s) := process_chatbot_response user_input (fst st) (snd st) in
  (db, s).

(** A conversation: the utterances of the session, one turn each. *)
Definition converse (st : Store * Session) (utterances : list string)
  : Store * Session :=
  fold_left turn utterances st.

(** The session states a conversation can reach from the initial one. *)
Inductive reachable (db0 : Store) : Store * Session -> Prop :=
| reach_init : reachable db0 (db0, initial_session)
| reach_turn st user_input :
    reachable db0 st -> reachable db0 (turn st user_input).
End Engine.

(** * Properties *)

(** ** Strings *)

Lemma isspace_lower_char c : Py.isspace (Py.lower_char c) = Py.isspace c.
Proof. destruct c as [[] [] [] [] [] [] [] []]; reflexivity. Qed.

Lemma lower_char_idem c : Py.lower_char (Py.lower_char c) = Py.lower_char c.
Proof. destruct c as [[] [] [] [] [] [] [] []]; reflexivity. Qed.

Lemma lower_idem s : Py.lower (Py.lower s) = Py.lower s.
Proof.
  induction s as [|c s IH]; simpl; [reflexivity|].
  now rewrite lower_char_idem, IH.
Qed.

Lemma lower_lstrip s : Py.lower (Py.lstrip s) = Py.lstrip (Py.lower s).
Proof.
  induction s as [|c s IH]; simpl; [reflexivity|].
  rewrite isspace_lower_char. destruct (Py.isspace c); [exact IH|reflexivity].
Qed.

Lemma lower_rstrip s : Py.lower (Py.rstrip s) = Py.rstrip (Py.lower s).
Proof.
  induction s as [|c s IH]; simpl; [reflexivity|].
  rewrite <- IH, isspace_lower_char.
  destruct (Py.rstrip s); simpl; [|reflexivity].
  destruct (Py.isspace c); reflexivity.
Qed.

Lemma lower_strip s : Py.lower (Py.strip s) = Py.strip (Py.lower s).
Proof. unfold Py.strip. now rewrite lower_rstrip, lower_lstrip. Qed.

Lemma rstrip_cons c s :
  Py.rstrip (String c s)
  = match Py.rstrip s with
    | EmptyString =>
        if Py.isspace c then EmptyString else String c EmptyString
    | r' => String c r'
    end.
Proof. reflexivity. Qed.

Lemma rstrip_idem s : Py.rstrip (Py.rstrip s) = Py.rstrip s.
Proof.
  induction s as [|c s IH]; [reflexivity|].
  rewrite (rstrip_cons c s).
  destruct (Py.rstrip s) as [|d r] eqn:E.
  - destruct (Py.isspace c) eqn:Ec; simpl; [reflexivity|now rewrite Ec].
  - now rewrite rstrip_cons, IH.
Qed.

(** A string that does not start with white space keeps its first
    character through [rstrip], so [lstrip] has nothing to remove. *)
Lemma lstrip_rstrip_lstrip s :
  Py.lstrip (Py.rstrip (Py.lstrip s)) = Py.rstrip (Py.lstrip s).
Proof.
  induction s as [|c s IH]; simpl; [reflexivity|].
  destruct (Py.isspace c) eqn:Ec; [exact IH|].
  rewrite rstrip_cons. destruct (Py.rstrip s); [rewrite Ec|]; simpl;
    now rewrite Ec.
Qed.

Lemma strip_idem s : Py.strip (Py.strip s) = Py.strip s.
Proof.
  unfold Py.strip. now rewrite lstrip_rstrip_lstrip, rstrip_idem.
Qed.

(** Lowering and trimming a text that is already lowered and trimmed
    changes nothing: [is_greeting] may redo what [detect_intent] did. *)
Lemma normal_form_idem s :
  Py.strip (Py.lower (Py.strip (Py.lower s))) = Py.strip (Py.lower s).
Proof. now rewrite lower_strip, lower_idem, strip_idem. Qed.

Lemma mem_true_iff x l : Py.mem x l = true <-> In x l.
Proof.
  unfold Py.mem. rewrite existsb_exists. split.
  - intros (y & Hy & E). apply String.eqb_eq in E. now subst.
  - intros H. exists x. split; [exact H|apply String.eqb_refl].
Qed.

Lemma digits_idem s : digits (digits s) = digits s.
Proof.
  induction s as [|c s IH]; simpl; [reflexivity|].
  destruct (Py.isdigit c) eqn:E; simpl; [now rewrite E, IH|exact IH].
Qed.

Lemma normalize_phone_Some s : normalize_phone (Some s) = digits s.
Proof. destruct s; reflexivity. Qed.

(** ** Stable sorting *)

Section StableSortFacts.
Context {A : Type} (before : A -> A -> bool).

Lemma insert_stable_perm x l :
  Permutation (insert_stable before x l) (x :: l).
Proof.
  induction l as [|y r IH]; simpl; [reflexivity|].
  destruct (before y x); [|reflexivity].
  rewrite IH. apply perm_swap.
Qed.

Lemma sort_stable_perm l : Permutation (sort_stable before l) l.
Proof.
  induction l as [|x r IH]; simpl; [reflexivity|].
  rewrite insert_stable_perm. now constructor.
Qed.

Lemma sort_stable_In l x : In x (sort_stable before l) <-> In x l.
Proof.
  split; apply Permutation_in;
    [apply sort_stable_perm|symmetry; apply sort_stable_perm].
Qed.

Lemma sort_stable_nil l : sort_stable before l = [] -> l = [].
Proof.
  intros H. pose proof (sort_stable_perm l) as P. rewrite H in P.
  now apply Permutation_nil.
Qed.

(** [x] is not behind [y]: [y] does not sort strictly ahead of [x]. *)
Definition not_behind (x y : A) : Prop := before y x = false.

Hypothesis before_asym : forall x y, before x y = true -> before y x = false.
Hypothesis not_behind_trans :
  forall x y z, not_behind x y -> not_behind y z -> not_behind x z.

Lemma insert_stable_sorted x l :
  StronglySorted not_behind l ->
  StronglySorted not_behind (insert_stable before x l).
Proof using before_asym not_behind_trans.
  induction 1 as [|y r Hs IH Hy]; simpl.
  - constructor; constructor.
  - destruct (before y x) eqn:E.
    + constructor; [exact IH|].
      rewrite List.Forall_forall in *. intros z Hz.
      apply (Permutation_in _ (insert_stable_perm x r)) in Hz.
      destruct Hz as [<-|Hz]; [now apply before_asym|now apply Hy].
    + constructor; [now constructor|].
      constructor; [exact E|].
      rewrite List.Forall_forall in *. intros z Hz.
      apply not_behind_trans with y; [exact E|now apply Hy].
Qed.

Lemma sort_stable_sorted l : StronglySorted not_behind (sort_stable before l).
Proof using before_asym not_behind_trans.
  induction l as [|x r IH]; simpl; [constructor|].
  now apply insert_stable_sorted.
Qed.
End StableSortFacts.

(** Stability: the elements of a class whose members are mutually tied come
    out in the order they went in. *)
Lemma insert_stable_filter {A} (before : A -> A -> bool) (p : A -> bool) x l :
  (forall y z, p y = true -> p z = true -> before y z = false) ->
  List.filter p (insert_stable before x l)
  = if p x then x :: List.filter p l else List.filter p l.
Proof.
  intros tied. induction l as [|y r IH]; simpl; [reflexivity|].
  destruct (before y x) eqn:E; simpl.
  - rewrite IH. destruct (p y) eqn:Py, (p x) eqn:Px; try reflexivity.
    rewrite (tied y x Py Px) in E. discriminate.
  - reflexivity.
Qed.

Lemma sort_stable_filter {A} (before : A -> A -> bool) (p : A -> bool) l :
  (forall y z, p y = true -> p z = true -> before y z = false) ->
  List.filter p (sort_stable before l) = List.filter p l.
Proof.
  intros tied. induction l as [|x r IH]; simpl; [reflexivity|].
  rewrite insert_stable_filter by exact tied. now rewrite IH.
Qed.

(** ** The order of timestamps: Python compares strings character by
    character, by code point *)

Lemma ascii_compare_Lt_trans a b c :
  Ascii.compare a b = Lt -> Ascii.compare b c = Lt -> Ascii.compare a c = Lt.
Proof.
  unfold Ascii.compare. rewrite !N.compare_lt_iff. apply N.lt_trans.
Qed.

Lemma string_compare_Lt_trans a :
  forall b c, String.compare a b = Lt -> String.compare b c = Lt ->
              String.compare a c = Lt.
Proof.
  induction a as [|x a IH]; intros [|y b] [|z c]; simpl;
    try discriminate; try reflexivity.
  destruct (Ascii.compare x y) eqn:Exy; try discriminate.
  - apply Ascii.compare_eq_iff in Exy. subst y.
    destruct (Ascii.compare x z); try discriminate; [apply IH|reflexivity].
  - intros _. destruct (Ascii.compare y z) eqn:Eyz; try discriminate.
    + apply Ascii.compare_eq_iff in Eyz. subst z. now rewrite Exy.
    + intros _. now rewrite (ascii_compare_Lt_trans x y z).
Qed.

Lemma string_ltb_asym a b : String.ltb a b = true -> String.ltb b a = false.
Proof.
  unfold String.ltb. rewrite (String.compare_antisym a b).
  destruct (String.compare b a); simpl; congruence.
Qed.

Lemma string_ltb_irrefl a : String.ltb a a = false.
Proof.
  destruct (String.ltb a a) eqn:E; [|reflexivity].
  now rewrite (string_ltb_asym a a E) in E.
Qed.

Lemma string_not_ltb_trans a b c :
  String.ltb a b = false -> String.ltb b c = false -> String.ltb a c = false.
Proof.
  unfold String.ltb. intros Hab Hbc.
  destruct (String.compare a c) eqn:Eac; try reflexivity.
  destruct (String.compare a b) eqn:Eab; try discriminate.
  - apply String.compare_eq_iff in Eab. subst b. now rewrite Eac in Hbc.
  - assert (String.compare b a = Lt) as Eba
      by (rewrite String.compare_antisym, Eab; reflexivity).
    now rewrite (string_compare_Lt_trans b a c Eba Eac) in Hbc.
Qed.

Lemma string_not_ltb_leb a b : String.ltb a b = false <-> String.leb b a = true.
Proof.
  unfold String.ltb, String.leb. rewrite (String.compare_antisym a b).
  destruct (String.compare b a); simpl; intuition congruence.
Qed.

(** ** Identity lookup *)

Lemma phone_matches_iff q r :
  phone_matches (digits q) r = true
  <-> digits (Py.or_empty (Listing.phone_number r)) = digits q.
Proof.
  unfold phone_matches. rewrite normalize_phone_Some, String.eqb_eq.
  split; congruence.
Qed.

Lemma StronglySorted_weaken {A} (R S : A -> A -> Prop) l :
  (forall x y, R x y -> S x y) -> StronglySorted R l -> StronglySorted S l.
Proof.
  intros RS. induction 1 as [|x r Hs IH Hx]; constructor; [exact IH|].
  eapply List.Forall_impl; [|exact Hx]. intros y. apply RS.
Qed.

Lemma later_asym a b : later a b = true -> later b a = false.
Proof.
  destruct a as [x|], b as [y|]; simpl; try congruence.
  apply string_ltb_asym.
Qed.

Lemma not_later_trans a b c :
  later b a = false -> later c b = false -> later c a = false.
Proof.
  destruct a as [x|], b as [y|], c as [z|]; simpl; try congruence.
  intros H1 H2. now apply (string_not_ltb_trans _ y).
Qed.

(** The listings with the key of [q], in store order. *)
Definition matches_of (db : Store) (q : string) : list Listing :=
  List.filter (phone_matches (digits q)) db.

Lemma lookup_nonempty_key W db q :
  digits q <> EmptyString ->
  get_businesses_by_phone W db (Some q)
  = if sort_raises (matches_of db q)
    then aborted_sort W (matches_of db q)
    else sort_stable newer (matches_of db q).
Proof.
  intros H. unfold get_businesses_by_phone, matches_of.
  rewrite normalize_phone_Some.
  destruct (digits q) eqn:E; [contradiction|]. reflexivity.
Qed.

Lemma lookup_perm W db q :
  digits q <> EmptyString ->
  Permutation (get_businesses_by_phone W db (Some q)) (matches_of db q).
Proof.
  intros H. rewrite (lookup_nonempty_key W db q H).
  destruct (sort_raises _); [apply aborted_sort_same|apply sort_stable_perm].
Qed.

(** A lookup that finds at most one listing returns what the table holds. *)
Lemma lookup_short W db q :
  digits q <> EmptyString ->
  (List.length (matches_of db q) <= 1)%nat ->
  get_businesses_by_phone W db (Some q) = matches_of db q.
Proof.
  intros H Hlen. rewrite (lookup_nonempty_key W db q H).
  unfold sort_raises.
  destruct (matches_of db q) as [|x [|y l]]; try reflexivity.
  simpl in Hlen. lia.
Qed.

Lemma lookup_In W db phone r :
  In r (get_businesses_by_phone W db phone) ->
  In r db
  /\ normalize_phone phone <> EmptyString
  /\ digits (Py.or_empty (Listing.phone_number r)) = normalize_phone phone.
Proof.
  unfold get_businesses_by_phone.
  destruct (normalize_phone phone) as [|c n] eqn:E; simpl; [tauto|].
  intros H.
  assert (In r (List.filter (phone_matches (String c n)) db)) as Hin.
  { destruct (sort_raises _).
    - now apply (Permutation_in _ (aborted_sort_same W _)) in H.
    - now apply sort_stable_In in H. }
  apply filter_In in Hin. unfold phone_matches in Hin.
  rewrite normalize_phone_Some, String.eqb_eq in Hin. intuition congruence.
Qed.

(** Listings with the same timestamp are tied for the sort. *)
Definition stamped (t : string) (r : Listing) : bool :=
  match Listing.created_at r with
  | Some c => String.eqb c t
  | None => false
  end.

Lemma stamped_tied t x y :
  stamped t x = true -> stamped t y = true -> newer x y = false.
Proof.
  unfold stamped, newer.
  destruct (Listing.created_at x) as [a|], (Listing.created_at y) as [b|];
    try discriminate.
  rewrite !String.eqb_eq. intros -> ->. apply string_ltb_irrefl.
Qed.

(** [x] comes at or before [y] in "most recent first" order: [y] is not
    strictly later than [x]. *)
Definition at_least_as_recent (x y : Listing) : Prop :=
  later (Listing.created_at y) (Listing.created_at x) = false.

Lemma sorted_most_recent_first l :
  StronglySorted at_least_as_recent (sort_stable newer l).
Proof.
  apply (sort_stable_sorted newer).
  - intros x y. unfold newer. apply later_asym.
  - intros x y z. unfold not_behind, newer. apply not_later_trans.
Qed.

(** No listing of the key lacks a timestamp, or at most one listing has the
    key: the sort raises nothing. *)
Definition sortable (db : Store) (q : string) : Prop :=
  (forall r, In r db ->
     digits (Py.or_empty (Listing.phone_number r)) = digits q ->
     Listing.created_at r <> None)
  \/ (List.length (matches_of db q) <= 1)%nat.

Lemma matches_of_In db q r :
  In r (matches_of db q)
  <-> In r db /\ digits (Py.or_empty (Listing.phone_number r)) = digits q.
Proof.
  unfold matches_of. rewrite filter_In, phone_matches_iff. reflexivity.
Qed.

Lemma lookup_sorted W db q :
  digits q <> EmptyString -> sortable db q ->
  get_businesses_by_phone W db (Some q) = sort_stable newer (matches_of db q).
Proof.
  intros Hq Hs. rewrite (lookup_nonempty_key W db q Hq).
  destruct (sort_raises (matches_of db q)) eqn:E; [|reflexivity].
  exfalso. unfold sort_raises in E. apply andb_true_iff in E as [Hlen Hex].
  apply Nat.ltb_lt in Hlen. apply existsb_exists in Hex as (r & Hin & Hr).
  destruct Hs as [Hall|Hshort]; [|lia].
  apply matches_of_In in Hin as [Hin Hkey].
  apply (Hall r Hin Hkey). unfold no_timestamp in Hr.
  now destruct (Listing.created_at r).
Qed.

Lemma lookup_raised W db q :
  digits q <> EmptyString ->
  (1 < List.length (matches_of db q))%nat ->
  (exists r, In r (matches_of db q) /\ Listing.created_at r = None) ->
  get_businesses_by_phone W db (Some q) = aborted_sort W (matches_of db q).
Proof.
  intros Hq Hlen (r & Hin & Hr). rewrite (lookup_nonempty_key W db q Hq).
  replace (sort_raises (matches_of db q)) with true; [reflexivity|].
  symmetry. unfold sort_raises. apply andb_true_iff. split.
  - now apply Nat.ltb_lt.
  - apply existsb_exists. exists r. split; [exact Hin|].
    unfold no_timestamp. now rewrite Hr.
Qed.

(** The head of a list sorted most recent first is at least as recent as
    every element. *)
Lemma head_most_recent l b r :
  List.head (sort_stable newer l) = Some b -> In r l ->
  at_least_as_recent b r.
Proof.
  intros Hhead Hin. apply (sort_stable_In newer) in Hin.
  pose proof (sorted_most_recent_first l) as Hsorted.
  destruct (sort_stable newer l) as [|x l']; [discriminate|].
  injection Hhead as ->. inversion Hsorted as [|y l0 _ Hall]; subst.
  destruct Hin as [<-|Hin].
  - unfold at_least_as_recent.
    destruct (later (Listing.created_at b) (Listing.created_at b)) eqn:E;
      [|reflexivity].
    now rewrite (later_asym _ _ E) in E.
  - rewrite List.Forall_forall in Hall. now apply Hall.
Qed.

(** ** Sample data for the worked instances *)

(** A world in which nothing is close to anything, the online search finds
    nothing, the clock stands still, no write fails, and a sort that raises
    leaves the list in the order it had. *)
Definition quiet_world : World :=
  {| get_close_matches := fun _ _ _ => [];
     search_online := fun _ => inr [];
     rank_online_results := fun l => l;
     utcnow := fun _ => "2026-01-01 00:00:00";
     insert_error := fun _ _ => None;
     update_error := fun _ _ _ => None;
     aborted_sort := fun l => l;
     aborted_sort_same := fun l => Permutation_refl l |}.

Definition sample_row (rowid : positive) (name phone category city : string)
  (created_at : option string) : Listing :=
  {| Listing.rowid := rowid;
     Listing.id := Some (Z.pos rowid);
     Listing.name := Some name;
     Listing.address := Some "12 Elm Street";
     Listing.phone_number := Some phone;
     Listing.website := Some "";
     Listing.category := Some category;
     Listing.subcategory := None;
     Listing.city := Some city;
     Listing.state := Some "";
     Listing.area := None;
     Listing.reviews_count := Some 0;
     Listing.reviews_average := None;
     Listing.created_at := created_at |}.

Definition sample_listing (rowid : positive) (name phone category city
  created_at : string) : Listing :=
  sample_row rowid name phone category city (Some created_at).

Definition joes_cafe : Listing :=
  sample_listing 1 "Joe's Cafe" "98733 12399" "Cafe" "Pune"
    "2024-03-01 10:00:00".
Definition joes_bakery : Listing :=
  sample_listing 2 "Joe's Bakery" "98733-12399" "Bakery" "Pune"
    "2025-06-15 08:30:00".
Definition marios : Listing :=
  sample_listing 3 "Mario's" "(011) 5550-100" "Pizza" "Delhi"
    "2025-01-01 00:00:00".
Definition joes_stall : Listing :=
  sample_listing 4 "Joe's Stall" "9873312399" "Cafe" "Pune" "".
Definition unlisted : Listing :=
  sample_listing 5 "No Phone" "n/a" "Salon" "Pune" "2025-02-02 00:00:00".

Definition sample_db : Store :=
  [joes_cafe; joes_bakery; marios; joes_stall; unlisted].

(** A row whose [created_at] is NULL, under the phone of Joe's Cafe, and a
    table that holds it after two dated rows of that phone. *)
Definition joes_kiosk : Listing :=
  sample_row 6 "Joe's Kiosk" "9873312399" "Cafe" "Pune" None.

Definition undated_db : Store := [joes_cafe; joes_bakery; marios; joes_kiosk].

(** ** C6: the identity lookup *)

(** C6, as claimed, fails: the lookup does not always return the listings
    most recent first.  The table [undated_db] holds three listings of one
    phone: one of 2024, one of 2025 and one whose [created_at] is NULL.  The
    sort compares a string with [None], raises, and the [except: pass] keeps
    the list: the listings come back in store order, the one of 2024 before
    the one of 2025.  ([list.sort(reverse=True)] reverses the list, so its
    first comparison is between the keys of the last two matches, here a
    string and [None]: the list is still as it was when the error is raised,
    which is what the world [quiet_world] says of an aborted sort.) *)
Lemma lookup_unordered_when_a_timestamp_is_missing :
  let found :=
    get_businesses_by_phone quiet_world undated_db (Some "98733 12399") in
  found = [joes_cafe; joes_bakery; joes_kiosk]
  /\ newer joes_bakery joes_cafe = true
  /\ ~ StronglySorted at_least_as_recent found.
Proof.
  cbv zeta.
  assert (get_businesses_by_phone quiet_world undated_db (Some "98733 12399")
          = [joes_cafe; joes_bakery; joes_kiosk]) as -> by reflexivity.
  split; [reflexivity|]. split; [reflexivity|].
  intros H. inversion H as [|x l _ Hall]; subst.
  inversion Hall as [|y l' Hhead _]; subst.
  unfold at_least_as_recent in Hhead. vm_compute in Hhead. discriminate.
Qed.

(** C6, amended.  For a query phone whose digit-only projection is not
    empty, the lookup returns exactly the stored listings whose phone number
    has the same digit-only projection (as a multiset, and so as a set:
    equality of the projections, no partial match).  When every one of these
    listings has a [created_at], or there is at most one of them, they come
    most recent [created_at] first, and listings with the same timestamp keep
    the order they have in the store.  When there are two or more and one of
    them has no [created_at], the sort raises and the result is the list the
    aborted sort leaves: the same listings, in no promised order. *)
Theorem lookup_by_identity_exact_and_ordered (W : World) (db : Store)
  (q : string) :
  digits q <> EmptyString ->
  let same_identity (r : Listing) :=
    String.eqb (digits (Py.or_empty (Listing.phone_number r))) (digits q) in
  let matches := List.filter same_identity db in
  let found := get_businesses_by_phone W db (Some q) in
  Permutation found matches
  /\ (forall r, In r found
                <-> In r db
                    /\ digits (Py.or_empty (Listing.phone_number r))
                       = digits q)
  /\ ((forall r, In r matches -> Listing.created_at r <> None)
      \/ (List.length matches <= 1)%nat ->
      StronglySorted at_least_as_recent found
      /\ (forall t, List.filter (stamped t) found
                    = List.filter (stamped t) matches))
  /\ ((1 < List.length matches)%nat ->
      (exists r, In r matches /\ Listing.created_at r = None) ->
      found = aborted_sort W matches).
Proof.
  intros Hq same_identity matches found.
  assert (matches_of db q = matches) as Ematches.
  { apply filter_ext. intros r. unfold phone_matches, same_identity.
    rewrite normalize_phone_Some. apply String.eqb_sym. }
  assert (Permutation found matches) as Hperm.
  { unfold found. rewrite <- Ematches. now apply lookup_perm. }
  assert (forall r, In r matches
                    <-> In r db
                        /\ digits (Py.or_empty (Listing.phone_number r))
                           = digits q) as Hmatches.
  { intros r. unfold matches. rewrite filter_In. unfold same_identity.
    now rewrite String.eqb_eq. }
  split; [exact Hperm|]. split; [|split].
  - intros r. rewrite <- Hmatches. split; intros H.
    + now apply (Permutation_in _ Hperm).
    + now apply (Permutation_in _ (Permutation_sym Hperm)).
  - intros Hstamped.
    assert (found = sort_stable newer matches) as ->.
    { unfold found. rewrite <- Ematches. apply (lookup_sorted W db q Hq).
      rewrite <- Ematches in Hstamped.
      destruct Hstamped as [Hall|Hshort]; [left|now right].
      intros r Hin Hkey. apply Hall. now apply matches_of_In. }
    split; [apply sorted_most_recent_first|].
    intros t. apply sort_stable_filter. apply stamped_tied.
  - intros Hlen Hmissing. unfold found. rewrite <- Ematches in *.
    now apply lookup_raised.
Qed.

Lemma lookup_by_identity_exact_and_ordered_witness :
  get_businesses_by_phone quiet_world sample_db (Some "98733 12399")
  = [joes_bakery; joes_cafe; joes_stall]
  /\ StronglySorted at_least_as_recent
       (get_businesses_by_phone quiet_world sample_db (Some "98733 12399"))
  /\ get_businesses_by_phone quiet_world undated_db (Some "98733 12399")
     = aborted_sort quiet_world [joes_cafe; joes_bakery; joes_kiosk].
Proof.
  split; [reflexivity|].
  pose proof (lookup_by_identity_exact_and_ordered quiet_world sample_db
                "98733 12399") as Hdated.
  pose proof (lookup_by_identity_exact_and_ordered quiet_world undated_db
                "98733 12399") as Hundated.
  cbv zeta in Hdated, Hundated.
  destruct Hdated as (_ & _ & Hsorted & _); [discriminate|].
  destruct Hundated as (_ & _ & _ & Haborted); [discriminate|].
  split.
  - apply Hsorted. left. intros r Hin. vm_compute in Hin.
    destruct Hin as [<-|[<-|[<-|[]]]]; discriminate.
  - apply Haborted.
    + vm_compute. lia.
    + exists joes_kiosk. split; [|reflexivity]. vm_compute. tauto.
Defined.

(** ** C9: an empty identity key *)

Lemma normalize_or_empty o :
  normalize_phone (Some (Py.or_empty o)) = normalize_phone o.
Proof. destruct o as [s|]; [reflexivity|reflexivity]. Qed.

(** C9.  When the digit-only projection of the input is empty ([None], the
    empty string, symbols only) the lookup returns the empty list whatever
    the store holds; and a stored listing whose own phone number has an empty
    projection is returned for no query at all. *)
Theorem lookup_by_empty_identity (W : World) (db : Store)
  (phone : option string) :
  (normalize_phone phone = EmptyString ->
   get_businesses_by_phone W db phone = [])
  /\ (forall r, normalize_phone (Listing.phone_number r) = EmptyString ->
                ~ In r (get_businesses_by_phone W db phone)).
Proof.
  split.
  - intros H. unfold get_businesses_by_phone. now rewrite H.
  - intros r Hr Hin. apply lookup_In in Hin as (_ & Hne & E).
    rewrite <- normalize_phone_Some, normalize_or_empty, Hr in E.
    now apply Hne.
Qed.

Lemma lookup_by_empty_identity_witness :
  get_businesses_by_phone quiet_world sample_db (Some "+-() ") = []
  /\ ~ In unlisted
         (get_businesses_by_phone quiet_world sample_db (Some "98733 12399")).
Proof.
  split.
  - apply (lookup_by_empty_identity quiet_world sample_db (Some "+-() ")).
    reflexivity.
  - apply (lookup_by_empty_identity quiet_world sample_db
             (Some "98733 12399")).
    reflexivity.
Defined.

(** ** C2: intent classification *)

(** C2.  [detect_intent] is the first-match-wins cascade over the rule table
    greeting, search, show, update, add, with [General] last; so a text that,
    lowercased and trimmed, holds a search phrase and no greeting phrase is
    classified as a search, whatever show, update or add phrases it also
    holds. *)
Theorem detect_intent_priority (text : string) :
  detect_intent text = classify text
  /\ (contains_any greetings (Py.strip (Py.lower text)) = false ->
      contains_any search_keywords (Py.strip (Py.lower text)) = true ->
      detect_intent text = Search).
Proof.
  unfold detect_intent, is_greeting, classify. rewrite normal_form_idem.
  split.
  - reflexivity.
  - intros Hg Hs. now rewrite Hg, Hs.
Qed.

Lemma detect_intent_priority_witness :
  contains_any show_keywords
    (Py.strip (Py.lower "search my business info")) = true
  /\ detect_intent "search my business info" = Search.
Proof.
  split; [reflexivity|].
  apply (detect_intent_priority "search my business info"); reflexivity.
Defined.

(** ** C7: the substring rule of the spelling corrector *)

(** C7.  If the lowercased, trimmed token is a substring of a corpus term,
    or a corpus term is a substring of it, the corrector returns the token as
    it was given, not corrected and without suggestions (the corpus is then
    not empty). *)
Theorem substring_match_not_corrected (W : World) (db : Store)
  (query : string) :
  (exists term, In term (get_all_searchable_terms db)
                /\ (Py.contains (Py.strip (Py.lower query)) term = true
                    \/ Py.contains term (Py.strip (Py.lower query)) = true)) ->
  correct_spelling W db query = (query, false, []).
Proof.
  intros (term & Hin & Hsub). unfold correct_spelling.
  destruct (get_all_searchable_terms db) as [|t0 ts] eqn:E; [destruct Hin|].
  destruct (Py.mem _ (t0 :: ts)); [reflexivity|].
  replace (existsb _ (t0 :: ts)) with true; [reflexivity|].
  symmetry. apply existsb_exists. exists term. split; [exact Hin|].
  now apply orb_true_iff.
Qed.

Definition diner : Listing :=
  sample_listing 1 "Asha Diner" "020 5550 123" "Restaurant" "Pune"
    "2025-01-01 00:00:00".

Lemma substring_match_not_corrected_witness :
  In "restaurant" (get_all_searchable_terms [diner])
  /\ correct_spelling quiet_world [diner] "rest" = ("rest", false, []).
Proof.
  assert (In "restaurant" (get_all_searchable_terms [diner])) as Hin
    by (vm_compute; tauto).
  split; [exact Hin|].
  apply (substring_match_not_corrected quiet_world [diner] "rest").
  exists "restaurant". split; [exact Hin|]. left. reflexivity.
Defined.

(** ** C5: cancelling a flow *)

(** C5.  In any active flow, at any step and whatever the store holds, an
    utterance that lowercased and trimmed is one of the cancel words resets
    the session to no mode, step 0 and empty data and is answered with the
    cancellation reply; the store is not touched and no handler of the mode
    is consulted (the outcome does not depend on the mode or the step). *)
Theorem cancel_word_resets_flow (W : World) (m : Mode) (db : Store)
  (s : Session) (user_input : string) :
  chat_mode s = Some m ->
  In (Py.strip (Py.lower user_input)) cancel_words ->
  process_chatbot_response W user_input db s
  = (Ret (Some RCancelled), db,
     {| chat_mode := None; chat_step := 0%nat; chat_data := ∅;
        current_business := None |})
  /\ handle_active_flow W user_input db s
     = process_chatbot_response W user_input db s.
Proof.
  intros Hm Hc. apply mem_true_iff in Hc.
  unfold process_chatbot_response, handle_active_flow. rewrite Hm, Hc.
  split; reflexivity.
Qed.

Lemma cancel_word_resets_flow_witness :
  process_chatbot_response quiet_world "  Cancel " sample_db
    {| chat_mode := Some ModeAdd; chat_step := 3%nat;
       chat_data := {[ "name" := "Joe's Cafe" ]};
       current_business := None |}
  = (Ret (Some RCancelled), sample_db, initial_session).
Proof.
  apply (cancel_word_resets_flow quiet_world ModeAdd sample_db _ "  Cancel ").
  - reflexivity.
  - vm_compute. tauto.
Defined.

(** ** C10: a failed update writes nothing *)

Lemma sql_update_no_row f ids db :
  List.filter (rowid_in ids) db = [] ->
  List.map (fun r => if rowid_in ids r then set_columns f r else r) db = db.
Proof.
  induction db as [|r db IH]; simpl; [reflexivity|].
  destruct (rowid_in ids r); [discriminate|].
  intros H. now rewrite IH.
Qed.

Lemma filter_updates_no_allowed_key (u : gmap string (option string)) :
  (forall k, is_Some (u !! k) -> ~ In k ALLOWED_FIELDS) ->
  filter_updates u = ∅.
Proof.
  intros H. apply map_eq. intros k. unfold filter_updates.
  rewrite map_lookup_imap, lookup_empty.
  destruct (u !! k) as [v|] eqn:E; [|reflexivity].
  assert (Py.mem k ALLOWED_FIELDS = false) as ->; [|reflexivity].
  destruct (Py.mem k ALLOWED_FIELDS) eqn:M; [|reflexivity].
  apply mem_true_iff in M. exfalso. apply (H k); [now exists v|exact M].
Qed.

Lemma update_business_false_keeps_table (W : World) db business_id updates
  phone_number :
  fst (update_business W db business_id updates phone_number) = false ->
  snd (update_business W db business_id updates phone_number) = db.
Proof.
  unfold update_business.
  repeat (match goal with
          | |- context [match ?x with _ => _ end] => destruct x eqn:?
          end; try reflexivity).
  unfold sql_update in *. simplify_eq. cbn [fst snd].
  intros H. apply Nat.ltb_ge in H. apply sql_update_no_row.
  destruct (List.filter _ db); [reflexivity|simpl in H; lia].
Qed.

Lemma update_business_no_allowed_key (W : World) db business_id
  (u : gmap string (option string)) phone_number :
  (forall k, is_Some (u !! k) -> ~ In k ALLOWED_FIELDS) ->
  update_business W db business_id (Some u) phone_number = (false, db).
Proof.
  intros H. unfold update_business.
  rewrite (filter_updates_no_allowed_key u H).
  destruct (decide (u = ∅)); [reflexivity|].
  destruct (decide (∅ = ∅)); [reflexivity|contradiction].
Qed.

(** C10.  Whenever [update_business] returns [False] the table is what it
    was before the call; and it returns [False], with the table untouched,
    in each of the listed cases: [updates] is [None] or empty, no key of
    [updates] is an allowed field, no row matches the id or the normalized
    phone number, the write raised (and was rolled back). *)
Theorem update_business_failure_is_atomic (W : World) (db : Store)
  (business_id : option Z) (updates : option (gmap string (option string)))
  (phone_number : option string) :
  let result := update_business W db business_id updates phone_number in
  (fst result = false -> snd result = db)
  /\ (updates = None \/ updates = Some ∅ -> result = (false, db))
  /\ (forall u, updates = Some u ->
        (forall k, is_Some (u !! k) -> ~ In k ALLOWED_FIELDS) ->
        result = (false, db))
  /\ (find_matching_rowids db business_id phone_number = [] ->
      result = (false, db))
  /\ (forall u, updates = Some u ->
        update_error W db (filter_updates u)
          (find_matching_rowids db business_id phone_number) <> None ->
        result = (false, db)).
Proof.
  cbv zeta. unfold update_business.
  destruct updates as [u|]; [|repeat split; intros; reflexivity].
  destruct (decide (u = ∅)) as [Eu|Nu].
  { repeat split; intros; reflexivity. }
  destruct (decide (filter_updates u = ∅)) as [Ef|Nf].
  { repeat split; intros; reflexivity. }
  destruct (find_matching_rowids db business_id phone_number)
    as [|i ids] eqn:Eids.
  { repeat split; intros; reflexivity. }
  destruct (update_error W db (filter_updates u) (i :: ids)) as [msg|] eqn:Ee.
  { repeat split; intros; reflexivity. }
  unfold sql_update. cbn [fst snd].
  split; [|split; [|split; [|split]]].
  - intros H. apply Nat.ltb_ge in H.
    apply sql_update_no_row.
    destruct (List.filter (rowid_in (i :: ids)) db); [reflexivity|].
    simpl in H. lia.
  - intros [H|H]; [discriminate H|]. injection H as ->. contradiction.
  - intros u' Hu' Hk. injection Hu' as <-.
    now rewrite (filter_updates_no_allowed_key u Hk) in Nf.
  - discriminate.
  - intros u' Hu'. injection Hu' as <-. rewrite Ee. contradiction.
Qed.

Lemma update_business_failure_is_atomic_witness :
  snd (update_business quiet_world sample_db (Some 1)
         (Some {[ "phone" := Some "5550001111" ]}) None) = sample_db
  /\ update_business quiet_world sample_db (Some 99)
       (Some {[ "website" := Some "joes.example" ]}) (Some "000-000")
     = (false, sample_db).
Proof.
  split.
  - pose proof (update_business_failure_is_atomic quiet_world sample_db
                  (Some 1) (Some {[ "phone" := Some "5550001111" ]}) None)
      as H.
    cbv zeta in H. destruct H as (H & _). apply H. vm_compute. reflexivity.
  - pose proof (update_business_failure_is_atomic quiet_world sample_db
                  (Some 99) (Some {[ "website" := Some "joes.example" ]})
                  (Some "000-000")) as H.
    cbv zeta in H. destruct H as (_ & _ & _ & H & _). apply H.
    vm_compute. reflexivity.
Defined.

(** ** The session invariant: an idle session has step 0 and no pending
    data *)

Definition idle_invariant (s : Session) : Prop :=
  chat_mode s = None -> chat_step s = 0%nat /\ chat_data s = ∅.

(** What a handler may do to the session: keep the mode it found, or leave
    the session without mode, at step 0 and with empty data. *)
Definition keeps_or_resets (s s' : Session) : Prop :=
  chat_mode s' = chat_mode s
  \/ (chat_mode s' = None /\ chat_step s' = 0%nat /\ chat_data s' = ∅).

(** Case analysis on the branch the handler takes. *)
Ltac branch :=
  match goal with
  | |- context [match ?x with _ => _ end] => destruct x eqn:?
  end.

Ltac kept_or_reset :=
  repeat branch; cbn [snd reply];
  first [left; reflexivity | right; repeat split; reflexivity].

Section SessionInvariant.
Context (W : World).

Lemma handle_show_flow_session user_input db s :
  keeps_or_resets s (snd (handle_show_flow W user_input db s)).
Proof. unfold handle_show_flow. kept_or_reset. Qed.

Lemma apply_update_session field_key new_value db s :
  keeps_or_resets s (snd (apply_update W field_key new_value db s)).
Proof.
  unfold apply_update. repeat branch; cbn [snd reply];
    try (left; reflexivity); try (right; repeat split; reflexivity).
  all: match goal with
       | H : match same_business _ _ with _ => _ end = (_, _) |- _ =>
           destruct (same_business _ _) eqn:?; inversion H; subst; clear H
       end; left; reflexivity.
Qed.

Lemma handle_update_flow_session user_input db s :
  keeps_or_resets s (snd (handle_update_flow W user_input db s)).
Proof.
  unfold handle_update_flow.
  destruct (chat_step s) as [|[|[|[|n]]]]; try (left; reflexivity).
  - kept_or_reset.
  - kept_or_reset.
  - do 2 (branch; [kept_or_reset|]). apply apply_update_session.
Qed.

Lemma submit_business_session db s :
  keeps_or_resets s (snd (submit_business W db s)).
Proof. unfold submit_business. kept_or_reset. Qed.

Lemma handle_add_flow_session user_input db s :
  keeps_or_resets s (snd (handle_add_flow W user_input db s)).
Proof.
  unfold handle_add_flow.
  destruct (chat_step s) as [|[|[|[|[|[|[|[|n]]]]]]]];
    try (left; reflexivity); try (kept_or_reset; fail).
  destruct (submit_business_session db
              (set_data "state" (place_value (Py.strip user_input)) s))
    as [H|H]; [left; exact H|right; exact H].
Qed.

Lemma handle_search_flow_session user_input db s :
  keeps_or_resets s (snd (handle_search_flow W user_input db s)).
Proof. unfold handle_search_flow. kept_or_reset. Qed.

Lemma handle_active_flow_session user_input db s :
  keeps_or_resets s (snd (handle_active_flow W user_input db s)).
Proof.
  unfold handle_active_flow.
  destruct (Py.mem _ cancel_words); [right; repeat split; reflexivity|].
  destruct (chat_mode s) as [[]|];
    [apply handle_show_flow_session | apply handle_update_flow_session
    | apply handle_add_flow_session | apply handle_search_flow_session
    | left; reflexivity].
Qed.

Lemma direct_search_session user_input db s :
  snd (direct_search W user_input db s) = s.
Proof. unfold direct_search. repeat branch; reflexivity. Qed.
End SessionInvariant.

(** One turn keeps the invariant, from any session and over any store. *)
Lemma turn_keeps_idle_invariant (W : World) (st : Store * Session)
  (user_input : string) :
  idle_invariant (snd st) -> idle_invariant (snd (turn W st user_input)).
Proof.
  destruct st as [db s]. unfold turn, process_chatbot_response. cbn [fst snd].
  intros Inv.
  destruct (chat_mode s) as [m|] eqn:Em.
  - pose proof (handle_active_flow_session W user_input db s) as H.
    destruct (handle_active_flow W user_input db s) as [[r db'] s'].
    cbn [snd] in *. destruct H as [H|(H1 & H2 & H3)].
    + intros Hn. rewrite H, Em in Hn. discriminate.
    + intros _. now split.
  - destruct (detect_intent user_input); cbn [reply snd];
      try exact Inv; try (intros Hn; discriminate Hn).
    pose proof (direct_search_session W user_input db s) as H.
    destruct (direct_search W user_input db s) as [[r db'] s'].
    cbn [snd] in *. now subst s'.
Qed.

(** X2.  In every state a conversation reaches from the initial one, a session
    without mode is at step 0 and holds no pending data: each path back to
    "no mode" (cancellation, completion, not found, failure, exception) goes
    through [reset_chat_flow]. *)
Theorem idle_session_is_clean (W : World) (db0 : Store)
  (st : Store * Session) :
  reachable W db0 st ->
  chat_mode (snd st) = None ->
  chat_step (snd st) = 0%nat /\ chat_data (snd st) = ∅.
Proof.
  induction 1 as [|st user_input Hr IH].
  - intros _. split; reflexivity.
  - now apply turn_keeps_idle_invariant.
Qed.

(** A conversation is a sequence of turns from the initial session. *)
Lemma converse_reachable (W : World) (db0 : Store) (utterances : list string) :
  reachable W db0 (converse W (db0, initial_session) utterances).
Proof.
  unfold converse.
  assert (forall st, reachable W db0 st ->
                     reachable W db0 (fold_left (turn W) utterances st)) as H.
  { induction utterances as [|u us IH]; intros st Hst; simpl; [exact Hst|].
    apply IH. now constructor. }
  apply H. constructor.
Qed.

Lemma idle_session_is_clean_witness :
  let st := converse quiet_world (sample_db, initial_session)
              ["add a business"; "Joe's Cafe"; "98733 12399"; "stop"] in
  chat_mode (snd st) = None
  /\ chat_step (snd st) = 0%nat /\ chat_data (snd st) = ∅.
Proof.
  cbv zeta. split; [vm_compute; reflexivity|].
  apply (idle_session_is_clean quiet_world sample_db).
  - apply converse_reachable.
  - vm_compute. reflexivity.
Defined.

(** ** Phone identity *)

(** Every character of [s] satisfies [p]. *)
Fixpoint all_chars (p : ascii -> bool) (s : string) : bool :=
  match s with
  | EmptyString => true
  | String c r => p c && all_chars p r
  end.

Lemma digits_all_digits s : all_chars Py.isdigit (digits s) = true.
Proof.
  induction s as [|c s IH]; simpl; [reflexivity|].
  destruct (Py.isdigit c) eqn:E; simpl; [now rewrite E|exact IH].
Qed.

Lemma digits_fixed s : all_chars Py.isdigit s = true -> digits s = s.
Proof.
  induction s as [|c s IH]; simpl; [reflexivity|].
  intros H. apply andb_true_iff in H as [Hc Hs]. now rewrite Hc, IH.
Qed.

(** X1.  The identity key holds digits only, normalizing it again changes
    nothing, and a string of digits is its own key. *)
Theorem normalize_phone_canonical (phone : option string) :
  all_chars Py.isdigit (normalize_phone phone) = true
  /\ normalize_phone (Some (normalize_phone phone)) = normalize_phone phone
  /\ (forall s, all_chars Py.isdigit s = true -> normalize_phone (Some s) = s).
Proof.
  split; [|split].
  - destruct phone as [s|]; [|reflexivity].
    rewrite normalize_phone_Some. apply digits_all_digits.
  - destruct phone as [s|]; [|reflexivity].
    rewrite !normalize_phone_Some. apply digits_idem.
  - intros s Hs. rewrite normalize_phone_Some. now apply digits_fixed.
Qed.

Lemma normalize_phone_canonical_witness :
  normalize_phone (Some "98733 12399") = "9873312399"
  /\ normalize_phone (Some "9873312399") = "9873312399".
Proof.
  split; [reflexivity|].
  apply (normalize_phone_canonical None). reflexivity.
Defined.

(** ** Updates that succeed *)

Lemma set_columns_fixed f r :
  Listing.rowid (set_columns f r) = Listing.rowid r
  /\ Listing.id (set_columns f r) = Listing.id r
  /\ Listing.reviews_count (set_columns f r) = Listing.reviews_count r
  /\ Listing.reviews_average (set_columns f r) = Listing.reviews_average r
  /\ Listing.created_at (set_columns f r) = Listing.created_at r.
Proof. repeat split; reflexivity. Qed.

(** What an update never touches: a column outside the update keeps its
    value in every row. *)
Definition untouched {A : Type} (col : Listing -> A) (db db' : Store) : Prop :=
  List.map col db' = List.map col db.

Lemma sql_update_untouched {A} (col : Listing -> A) f ids db :
  (forall r, col (set_columns f r) = col r) ->
  untouched col db (fst (sql_update f ids db)).
Proof.
  intros H. unfold untouched, sql_update. cbn [fst].
  rewrite map_map. apply map_ext. intros r.
  destruct (rowid_in ids r); [apply H|reflexivity].
Qed.

Lemma update_business_cases (W : World) db business_id updates phone_number :
  let result := update_business W db business_id updates phone_number in
  result = (false, db)
  \/ exists u,
       updates = Some u /\ filter_updates u <> ∅
       /\ result
          = (true,
             fst (sql_update (filter_updates u)
                    (find_matching_rowids db business_id phone_number) db)).
Proof.
  cbv zeta.
  pose proof (update_business_false_keeps_table W db business_id updates
                phone_number) as Hfail.
  destruct (update_business W db business_id updates phone_number)
    as [ok db'] eqn:E.
  destruct ok; [right|left; cbn in Hfail; now rewrite Hfail].
  unfold update_business in E.
  destruct updates as [u|]; [|discriminate].
  destruct (decide (u = ∅)); [discriminate|].
  destruct (decide (filter_updates u = ∅)) as [|Nf]; [discriminate|].
  destruct (find_matching_rowids db business_id phone_number); [discriminate|].
  destruct (update_error W db (filter_updates u) (p :: l)); [discriminate|].
  exists u. repeat split; [exact Nf|].
  unfold sql_update in *. cbn [fst]. now injection E as _ <-.
Qed.

(** X4.  An update, whether it succeeds or not, neither adds nor removes a
    listing and leaves in every listing the row identifier, the [id], the
    review figures and the creation time as they were. *)
Theorem update_business_keeps_identity (W : World) (db : Store)
  (business_id : option Z) (updates : option (gmap string (option string)))
  (phone_number : option string) :
  let db' := snd (update_business W db business_id updates phone_number) in
  List.length db' = List.length db
  /\ untouched Listing.rowid db db'
  /\ untouched Listing.id db db'
  /\ untouched Listing.reviews_count db db'
  /\ untouched Listing.reviews_average db db'
  /\ untouched Listing.created_at db db'.
Proof.
  cbv zeta.
  destruct (update_business_cases W db business_id updates phone_number)
    as [E|(u & _ & _ & E)]; rewrite E; cbn [snd].
  - repeat split; reflexivity.
  - split; [unfold sql_update; cbn [fst]; apply length_map|].
    repeat split; now apply sql_update_untouched.
Qed.

(** The part of an update that names allowed fields. *)
Definition allowed_part (u : gmap string (option string))
  : gmap string (option string) :=
  filter (fun kv => kv.1 ∈ ALLOWED_FIELDS) u.

Lemma mem_elem_of k l : Py.mem k l = true <-> k ∈ l.
Proof. rewrite mem_true_iff. symmetry. apply list_elem_of_In. Qed.

Lemma filter_updates_allowed_part u :
  filter_updates (allowed_part u) = filter_updates u.
Proof.
  apply map_eq. intros k. unfold filter_updates, allowed_part.
  rewrite !map_lookup_imap, map_lookup_filter.
  destruct (u !! k) as [v|]; [|reflexivity].
  cbn [mbind option_bind].
  destruct (Py.mem k ALLOWED_FIELDS) eqn:M.
  - apply mem_elem_of in M. rewrite option_guard_True by exact M.
    reflexivity.
  - rewrite option_guard_False; [reflexivity|].
    cbn [fst]. intros H. apply mem_elem_of in H. congruence.
Qed.

Lemma filter_updates_empty : filter_updates ∅ = ∅.
Proof. apply map_eq. intros k. unfold filter_updates.
  now rewrite map_lookup_imap, !lookup_empty. Qed.

(** X5.  Keys outside the allow-list are dropped without error: an update gives
    the same result and the same table as the update restricted to the
    allowed fields. *)
Theorem update_business_drops_unknown_fields (W : World) (db : Store)
  (business_id : option Z) (u : gmap string (option string))
  (phone_number : option string) :
  update_business W db business_id (Some u) phone_number
  = update_business W db business_id (Some (allowed_part u)) phone_number.
Proof.
  unfold update_business. rewrite filter_updates_allowed_part.
  destruct (decide (u = ∅)) as [->|Nu].
  - unfold allowed_part. rewrite map_filter_empty.
    destruct (decide (∅ = ∅)); [reflexivity|contradiction].
  - destruct (decide (allowed_part u = ∅)) as [Ea|Na]; [|reflexivity].
    rewrite <- (filter_updates_allowed_part u), Ea, filter_updates_empty.
    destruct (decide (∅ = ∅)); [reflexivity|contradiction].
Qed.

(** ** An update by id, read back by id *)

Lemma find_map_same {A} (p : A -> bool) (f : A -> A) l :
  (forall x, p (f x) = p x) ->
  List.find p (List.map f l) = option_map f (List.find p l).
Proof.
  intros H. induction l as [|x l IH]; simpl; [reflexivity|].
  rewrite H. destruct (p x); [reflexivity|exact IH].
Qed.

Lemma rowid_in_head i ids r : Listing.rowid r = i -> rowid_in (i :: ids) r = true.
Proof. intros <-. unfold rowid_in. simpl. now rewrite Pos.eqb_refl. Qed.

(** X6.  When a listing carries the given [id], an update that names an allowed
    field and meets no write error succeeds, and looking the listing up by
    that [id] afterwards gives it with the cleaned values in the updated
    columns and every other column as before. *)
Theorem update_by_id_then_get_by_id (W : World) (db : Store) (i : Z)
  (u : gmap string (option string)) (phone_number : option string)
  (r : Listing) :
  get_business_by_id db i = Some r ->
  filter_updates u <> ∅ ->
  update_error W db (filter_updates u) [Listing.rowid r] = None ->
  let result := update_business W db (Some i) (Some u) phone_number in
  fst result = true
  /\ get_business_by_id (snd result) i
     = Some (set_columns (filter_updates u) r).
Proof.
  intros Hget Hf Herr. cbv zeta.
  assert (List.find (has_id i) db = Some r) as Hfind by exact Hget.
  assert (find_matching_rowids db (Some i) phone_number = [Listing.rowid r])
    as Hids.
  { unfold find_matching_rowids, rowids_by_id. now rewrite Hfind. }
  unfold update_business.
  destruct (decide (u = ∅)) as [->|_].
  { now rewrite filter_updates_empty in Hf. }
  destruct (decide (filter_updates u = ∅)) as [|_]; [contradiction|].
  rewrite Hids, Herr. unfold sql_update. cbn [fst snd].
  apply find_some in Hfind as Hr. destruct Hr as [Hin Hid].
  split.
  - apply Nat.ltb_lt.
    assert (In r (List.filter (rowid_in [Listing.rowid r]) db)) as Hin'.
    { apply filter_In. split; [exact Hin|now apply rowid_in_head]. }
    destruct (List.filter (rowid_in [Listing.rowid r]) db);
      [destruct Hin'|simpl; lia].
  - unfold get_business_by_id.
    change (fun r0 => match Listing.id r0 with
                      | Some i0 => (i0 =? i)%Z
                      | None => false
                      end) with (has_id i).
    rewrite find_map_same.
    + rewrite Hfind. cbn [option_map].
      now rewrite (rowid_in_head (Listing.rowid r) [] r eq_refl).
    + intros x. destruct (rowid_in [Listing.rowid r] x); reflexivity.
Qed.

Lemma update_by_id_then_get_by_id_witness :
  option_map Listing.website
    (get_business_by_id
       (snd (update_business quiet_world sample_db (Some 2)
               (Some {[ "website" := Some " joes.example ";
                        "owner" := Some "joe" ]}) None)) 2)
  = Some (Some "joes.example").
Proof.
  pose proof (update_by_id_then_get_by_id quiet_world sample_db 2
                {[ "website" := Some " joes.example ";
                   "owner" := Some "joe" ]} None joes_bakery) as H.
  cbv zeta in H.
  destruct H as [_ H]; [reflexivity|vm_compute; discriminate|reflexivity|].
  rewrite H. vm_compute. reflexivity.
Defined.

(** ** Inserting a listing *)

Lemma eq_nocase_refl a : eq_nocase a a = true.
Proof. apply String.eqb_refl. Qed.

Lemma find_app_first {A} (p : A -> bool) l1 l2 :
  List.find p (l1 ++ l2)
  = match List.find p l1 with
    | Some x => Some x
    | None => List.find p l2
    end.
Proof.
  induction l1 as [|x l1 IH]; simpl; [reflexivity|].
  destruct (p x); [reflexivity|exact IH].
Qed.

(** The key [add_business] stores and compares. *)
Definition stored_phone (phone_number : string) : string :=
  if Py.truthy phone_number then normalize_phone (Some phone_number)
  else EmptyString.

Lemma stored_phone_digits phone_number :
  stored_phone phone_number = digits phone_number.
Proof. destruct phone_number; reflexivity. Qed.

Lemma next_rowid_fresh db r :
  In r db -> (Listing.rowid r < next_rowid db)%positive.
Proof.
  intros Hin. unfold next_rowid. destruct db as [|r0 db0]; [destruct Hin|].
  set (l := r0 :: db0) in *. clearbody l.
  induction l as [|x l IH]; [destruct Hin|].
  simpl. destruct Hin as [->|Hin]; [lia|]. specialize (IH Hin). lia.
Qed.

(** X24.  [add_business] only ever appends: the listings already stored stay as
    they are, at most one row is added at the end, and the row added has a
    rowid no stored listing uses. *)
Theorem add_business_appends (W : World) (db : Store)
  (name address phone_number website category subcategory city state
     area : string) :
  let db' := snd (add_business W db name address phone_number website
                    category subcategory city state area) in
  db' = db
  \/ (db' = (db ++ [new_row W db name address (stored_phone phone_number)
                      website category subcategory city state area])%list
      /\ forall r, In r db -> Listing.rowid r <> next_rowid db).
Proof.
  cbv zeta. unfold add_business. fold (stored_phone phone_number).
  destruct (List.find _ _); [left; reflexivity|].
  destruct (insert_error W db _); [left; reflexivity|].
  right. split; [reflexivity|].
  intros r Hin E. pose proof (next_rowid_fresh db r Hin). lia.
Qed.

Lemma add_business_appends_witness :
  let db' := snd (add_business quiet_world sample_db "Asha Diner"
                    "4 Mill Road" "020 5550 123" "" "Restaurant" "" "Pune"
                    "" "") in
  List.length db' = 6%nat
  /\ forall r, In r sample_db -> Listing.rowid r <> 6%positive.
Proof.
  cbv zeta. split; [reflexivity|].
  destruct (add_business_appends quiet_world sample_db "Asha Diner"
              "4 Mill Road" "020 5550 123" "" "Restaurant" "" "Pune" "" "")
    as [E|[_ H]]; [|exact H].
  vm_compute in E. discriminate E.
Defined.

(** X7.  Submitting the same business twice does not duplicate it: when a call
    returns, the same call on the table it produced returns the same
    identifier and leaves that table as it is. *)
Theorem add_business_idempotent (W : World) (db : Store)
  (name address phone_number website category subcategory city state
     area : string) (new_id : option Z) (db1 : Store) :
  add_business W db name address phone_number website category subcategory
    city state area = (Ret new_id, db1) ->
  add_business W db1 name address phone_number website category subcategory
    city state area = (Ret new_id, db1).
Proof.
  unfold add_business. fold (stored_phone phone_number).
  set (same_key := fun r : Listing =>
         String.eqb (stored_phone phone_number)
           (normalize_phone (Some (Py.or_empty (Listing.phone_number r))))).
  destruct (List.find same_key
              (List.filter (same_place name address area city state) db))
    as [r|] eqn:Efind.
  - intros H. injection H as <- <-. now rewrite Efind.
  - set (row := new_row W db name address (stored_phone phone_number) website
                  category subcategory city state area).
    destruct (insert_error W db row); [discriminate|].
    intros H. injection H as <- <-.
    rewrite List.filter_app, find_app_first, Efind.
    assert (same_place name address area city state row = true) as Hplace.
    { unfold same_place, row, new_row.
      cbn [Listing.name Listing.address Listing.area Listing.city
           Listing.state Py.or_empty].
      now rewrite !eq_nocase_refl. }
    assert (same_key row = true) as Hkey.
    { unfold same_key, row, new_row. cbn [Listing.phone_number Py.or_empty].
      rewrite normalize_phone_Some, stored_phone_digits, digits_idem.
      apply String.eqb_refl. }
    cbn [List.filter]. rewrite Hplace. cbn [List.find]. rewrite Hkey.
    reflexivity.
Qed.

Lemma add_business_idempotent_witness :
  let first := add_business quiet_world sample_db "Asha Diner" "4 Mill Road"
                 "020 5550 123" "" "Restaurant" "" "Pune" "" "" in
  fst first = Ret (Some 6)
  /\ add_business quiet_world (snd first) "Asha Diner" "4 Mill Road"
       "020 5550 123" "" "Restaurant" "" "Pune" "" "" = (Ret (Some 6), snd first).
Proof.
  cbv zeta. split; [reflexivity|].
  apply (add_business_idempotent quiet_world sample_db). reflexivity.
Defined.

(** A business under a key no stored listing has is inserted, and found
    alone under that key afterwards. *)
Lemma add_business_fresh_key (W : World) (db : Store)
  (name address phone_number website category subcategory city state
     area : string) :
  digits phone_number <> EmptyString ->
  (forall r, In r db ->
     digits (Py.or_empty (Listing.phone_number r)) <> digits phone_number) ->
  let row := new_row W db name address (digits phone_number) website
               category subcategory city state area in
  insert_error W db row = None ->
  let result := add_business W db name address phone_number website
                  category subcategory city state area in
  fst result = Ret (Some (Z.pos (next_rowid db)))
  /\ snd result = (db ++ [row])%list
  /\ get_businesses_by_phone W (snd result) (Some phone_number) = [row].
Proof.
  intros Hkey Hnone row Herr. cbv zeta.
  assert (forall l, (forall r, In r l -> In r db) ->
            List.filter (phone_matches (digits phone_number)) l = []) as Hno.
  { induction l as [|x l IH]; intros Hl; simpl; [reflexivity|].
    destruct (phone_matches (digits phone_number) x) eqn:E.
    - apply phone_matches_iff in E. exfalso.
      apply (Hnone x); [apply Hl; now left|exact E].
    - apply IH. intros r Hr. apply Hl. now right. }
  unfold add_business. fold (stored_phone phone_number).
  rewrite stored_phone_digits. fold row.
  destruct (List.find _ _) as [r|] eqn:Efind.
  { apply find_some in Efind as [Hin E]. apply filter_In in Hin as [Hin _].
    apply String.eqb_eq in E. rewrite normalize_phone_Some in E.
    exfalso. now apply (Hnone r Hin). }
  rewrite Herr. cbn [fst snd].
  split; [reflexivity|]. split; [reflexivity|].
  assert (matches_of (db ++ [row]) phone_number = [row]) as Hrow.
  { unfold matches_of.
    rewrite List.filter_app, (Hno db (fun r H => H)). cbn [app List.filter].
    assert (phone_matches (digits phone_number) row = true) as ->.
    { apply phone_matches_iff. cbn. apply digits_idem. }
    reflexivity. }
  rewrite (lookup_short W _ _ Hkey); rewrite Hrow; [reflexivity|].
  cbn [List.length]. lia.
Qed.


(** X8.  Insert, then look up: when no stored listing has the identity key of the
    phone number given, that key is not empty and the insert meets no error,
    [add_business] returns the new row's identifier, and a lookup by that
    phone number then finds exactly the new listing, whose phone number is
    the digit-only key and whose other fields are the values passed. *)
Theorem add_business_then_lookup (W : World) (db : Store)
  (name address phone_number website category subcategory city state
     area : string) :
  digits phone_number <> EmptyString ->
  (forall r, In r db ->
     digits (Py.or_empty (Listing.phone_number r)) <> digits phone_number) ->
  let row := new_row W db name address (digits phone_number) website
               category subcategory city state area in
  insert_error W db row = None ->
  let result := add_business W db name address phone_number website
                  category subcategory city state area in
  fst result = Ret (Some (Z.pos (next_rowid db)))
  /\ snd result = (db ++ [row])%list
  /\ get_businesses_by_phone W (snd result) (Some phone_number) = [row]
  /\ Listing.phone_number row = Some (digits phone_number)
  /\ Listing.website row = Some website
  /\ Listing.city row = Some city
  /\ Listing.state row = Some state.
Proof.
  intros Hkey Hnone row Herr.
  destruct (add_business_fresh_key W db name address phone_number website
              category subcategory city state area Hkey Hnone Herr)
    as (Hid & Hdb & Hlook).
  cbv zeta. split; [exact Hid|]. split; [exact Hdb|]. split; [exact Hlook|].
  repeat split; reflexivity.
Qed.

Lemma add_business_then_lookup_witness :
  option_map Listing.phone_number
    (List.head
       (get_businesses_by_phone quiet_world
          (snd (add_business quiet_world sample_db "Asha Diner" "4 Mill Road"
                  "020 5550 123" "" "Restaurant" "" "Pune" "" ""))
          (Some "020 5550 123")))
  = Some (Some "0205550123").
Proof.
  pose proof (add_business_then_lookup quiet_world sample_db "Asha Diner"
                "4 Mill Road" "020 5550 123" "" "Restaurant" "" "Pune" "" "")
    as H.
  cbv zeta in H. destruct H as (_ & _ & H & _).
  - discriminate.
  - intros r Hin. vm_compute in Hin.
    repeat (destruct Hin as [<-|Hin]; [vm_compute; discriminate|]).
    destruct Hin.
  - reflexivity.
  - rewrite H. reflexivity.
Defined.

(** ** The spelling corrector *)

(** X9.  The corrector either reports a correction, with at least one suggestion,
    or hands the token back exactly as it was given, with none; over an empty
    table it never corrects. *)
Theorem correct_spelling_unchanged_unless_corrected (W : World) (db : Store)
  (query : string) :
  let result := correct_spelling W db query in
  let corrected := fst (fst result) in
  let was_corrected := snd (fst result) in
  let suggestions := snd result in
  (was_corrected = false -> corrected = query /\ suggestions = [])
  /\ (was_corrected = true -> suggestions <> [])
  /\ (db = [] -> was_corrected = false).
Proof.
  cbv zeta. unfold correct_spelling.
  destruct (get_all_searchable_terms db) as [|t ts] eqn:E.
  { repeat split; intros; discriminate. }
  assert (db <> []) as Hdb by (intros ->; discriminate E).
  repeat branch; cbn [fst snd];
    (split; [intros; try discriminate; split; reflexivity
            |split; [intros; discriminate|intros; try reflexivity;
                                          contradiction]]).
Qed.

Lemma correct_spelling_unchanged_unless_corrected_witness :
  correct_spelling quiet_world [diner] "restorant" = ("restorant", false, []).
Proof.
  pose proof (correct_spelling_unchanged_unless_corrected quiet_world
                [diner] "restorant") as H.
  cbv zeta in H.
  destruct (correct_spelling quiet_world [diner] "restorant")
    as [[c wc] sugg] eqn:E.
  cbn [fst snd] in H. destruct H as (H & _).
  assert (wc = false) as Hwc by (vm_compute in E; congruence).
  destruct (H Hwc) as [-> ->]. now rewrite Hwc.
Defined.

(** ** The order of results *)

(** What a three-way comparison must satisfy to order a list. *)
Record lawful {A : Type} (cmp : A -> A -> comparison) : Prop := {
  cmp_antisym : forall a b, cmp a b = CompOpp (cmp b a);
  cmp_lt_trans : forall a b c, cmp a b = Lt -> cmp b c = Lt -> cmp a c = Lt;
  cmp_eq_left : forall a b c, cmp a b = Eq -> cmp a c = cmp b c
}.

Lemma lawful_Z : lawful Z.compare.
Proof.
  split.
  - intros a b. apply Z.compare_antisym.
  - intros a b c. rewrite !Z.compare_lt_iff. lia.
  - intros a b c H. apply Z.compare_eq_iff in H. now subst.
Qed.

Lemma lawful_Q : lawful Qcompare.
Proof.
  split.
  - intros a b. symmetry. apply Qcompare_antisym.
  - intros a b c. rewrite <- !Qlt_alt. apply Qlt_trans.
  - intros a b c H. apply Qeq_alt in H. now rewrite H.
Qed.

Lemma lawful_null {A} (cmp : A -> A -> comparison) :
  lawful cmp -> lawful (compare_null cmp).
Proof.
  intros [Ha Ht He]. split.
  - intros [a|] [b|]; simpl; auto.
  - intros [a|] [b|] [c|]; simpl; try discriminate; auto; apply Ht.
  - intros [a|] [b|] [c|]; simpl; try discriminate; auto; apply He.
Qed.

(** Comparison by a first key, then by a second. *)
Definition then_by {A} (c1 c2 : A -> A -> comparison) (x y : A) : comparison :=
  match c1 x y with Eq => c2 x y | c => c end.

Lemma lawful_then_by {A} (c1 c2 : A -> A -> comparison) :
  lawful c1 -> lawful c2 -> lawful (then_by c1 c2).
Proof.
  intros [A1 T1 E1] [A2 T2 E2]. unfold then_by. split.
  - intros a b. rewrite (A1 a b), (A2 a b). now destruct (c1 b a).
  - intros a b c.
    destruct (c1 a b) eqn:Eab; try discriminate.
    + rewrite (E1 a b c Eab). destruct (c1 b c); try discriminate;
        [apply T2|reflexivity].
    + intros _. destruct (c1 b c) eqn:Ebc; try discriminate.
      * assert (c1 c b = Eq) as Ecb by (rewrite A1, Ebc; reflexivity).
        assert (c1 c a = Gt) as Eca.
        { rewrite (E1 c b a Ecb), A1, Eab. reflexivity. }
        rewrite A1, Eca. reflexivity.
      * intros _. now rewrite (T1 a b c Eab Ebc).
  - intros a b c Hab. destruct (c1 a b) eqn:Eab; try discriminate.
    rewrite (E1 a b c Eab). destruct (c1 b c); auto.
Qed.

Lemma lawful_on {A B} (f : B -> A) (cmp : A -> A -> comparison) :
  lawful cmp -> lawful (fun x y => cmp (f x) (f y)).
Proof. intros [Ha Ht He]. split; intros; eauto. Qed.

(** [ORDER BY reviews_average DESC, reviews_count DESC] as a comparison. *)
Definition rating_compare : Listing -> Listing -> comparison :=
  then_by
    (fun x y => compare_null Qcompare (Listing.reviews_average x)
                  (Listing.reviews_average y))
    (fun x y => compare_null Z.compare (Listing.reviews_count x)
                  (Listing.reviews_count y)).

Lemma lawful_rating : lawful rating_compare.
Proof.
  apply lawful_then_by.
  - apply (lawful_on Listing.reviews_average), lawful_null, lawful_Q.
  - apply (lawful_on Listing.reviews_count), lawful_null, lawful_Z.
Qed.

Lemma better_rated_compare x y :
  better_rated x y = match rating_compare x y with Gt => true | _ => false end.
Proof.
  unfold better_rated, rating_compare, then_by.
  destruct (compare_null Qcompare _ _); reflexivity.
Qed.

(** [x] is rated at least as well as [y]: a higher average, or the same
    average and at least as many reviews, NULL counting below every
    value. *)
Definition rated_at_least (x y : Listing) : Prop := rating_compare x y <> Lt.

Lemma sorted_best_rated_first l :
  StronglySorted rated_at_least (sort_stable better_rated l).
Proof.
  destruct lawful_rating as [Ha Ht He].
  eapply StronglySorted_weaken; [|apply (sort_stable_sorted better_rated)].
  - intros x y H. unfold not_behind in H. rewrite better_rated_compare in H.
    unfold rated_at_least. rewrite Ha. destruct (rating_compare y x);
      simpl; congruence.
  - intros x y. rewrite !better_rated_compare, (Ha y x).
    destruct (rating_compare x y); simpl; congruence.
  - intros x y z. unfold not_behind. rewrite !better_rated_compare.
    intros Hyx Hzy.
    destruct (rating_compare z x) eqn:Ezx; try reflexivity. exfalso.
    destruct (rating_compare z y) eqn:Ezy; try discriminate.
    + rewrite (He z y x Ezy) in Ezx. now rewrite Ezx in Hyx.
    + assert (rating_compare x z = Lt) as Exz by (rewrite Ha, Ezx; reflexivity).
      pose proof (Ht x z y Exz Ezy) as Exy.
      rewrite (Ha y x), Exy in Hyx. discriminate.
Qed.

(** ** The tiered search *)

(** The first non-empty list of a ladder, the empty list when there is
    none. *)
Fixpoint first_non_empty {A : Type} (tiers : list (list A)) : list A :=
  match tiers with
  | [] => []
  | t :: rest => if is_empty t then first_non_empty rest else t
  end.

Lemma firstn_In {A} n : forall (l : list A) x, In x (firstn n l) -> In x l.
Proof.
  induction n as [|n IH]; intros [|y l] x; simpl; try tauto.
  intros [H|H]; [now left|right; now apply IH].
Qed.

Lemma firstn_sorted {A} (R : A -> A -> Prop) n :
  forall l, StronglySorted R l -> StronglySorted R (firstn n l).
Proof.
  induction n as [|n IH]; intros l Hs; [constructor|].
  destruct Hs as [|x l Hs Hx]; simpl; constructor; [now apply IH|].
  rewrite List.Forall_forall in *. intros y Hy. apply Hx.
  now apply (firstn_In n).
Qed.

Lemma top5_facts hit db :
  (List.length (top5 hit db) <= 5)%nat
  /\ (forall r, In r (top5 hit db) -> In r db /\ hit r = true)
  /\ StronglySorted rated_at_least (top5 hit db)
  /\ (top5 hit db = [] -> forall r, In r db -> hit r = false).
Proof.
  unfold top5. repeat split.
  - apply firstn_le_length.
  - apply firstn_In, sort_stable_In, filter_In in H. tauto.
  - apply firstn_In, sort_stable_In, filter_In in H. tauto.
  - apply firstn_sorted, sorted_best_rated_first.
  - intros H r Hin. destruct (hit r) eqn:E; [|reflexivity].
    assert (In r (sort_stable better_rated (List.filter hit db))) as Hs.
    { apply sort_stable_In, filter_In. now split. }
    destruct (sort_stable better_rated (List.filter hit db));
      [destruct Hs|discriminate H].
Qed.

Lemma smart_search_at_most_five (W : World) db user_query
  use_spelling_correction :
  (List.length
     (fst (fst (fst (smart_search_business W db user_query
                       use_spelling_correction)))) <= 5)%nat.
Proof.
  unfold smart_search_business.
  destruct (corrected_terms W db user_query use_spelling_correction)
    as [[kw loc] wc].
  cbn [fst]. unfold tier_a, tier_b, tier_c, tier_d.
  repeat match goal with
         | |- context [if ?c then _ else _] => destruct c
         end;
    first [apply (proj1 (top5_facts _ db)) | simpl; lia].
Qed.

(** X10.  The resolver climbs a fixed ladder: keyword and location (when both are
    non-empty), keyword only (when non-empty), location only (when
    non-empty), then the query as it was given; it returns the first rung
    that is not empty.  Whatever it returns has at most five listings, all of
    them stored, best rated first; and an empty result means that not even
    the raw query matches a name, category or city. *)
Theorem smart_search_first_non_empty_tier (W : World) (db : Store)
  (user_query : string) (use_spelling_correction : bool) :
  let '(results, keyword, location, was_corrected) :=
    smart_search_business W db user_query use_spelling_correction in
  (keyword, location, was_corrected)
  = corrected_terms W db user_query use_spelling_correction
  /\ results
     = first_non_empty
         [ if Py.truthy keyword && Py.truthy location
           then tier_a db keyword location else [];
           if Py.truthy keyword then tier_b db keyword else [];
           if Py.truthy location then tier_c db location else [];
           tier_d db user_query ]
  /\ (List.length results <= 5)%nat
  /\ (forall r, In r results -> In r db)
  /\ StronglySorted rated_at_least results
  /\ (results = [] -> forall r, In r db -> raw_hit user_query r = false).
Proof.
  unfold smart_search_business.
  destruct (corrected_terms W db user_query use_spelling_correction)
    as [[kw loc] wc].
  split; [reflexivity|].
  set (results := if is_empty _ then tier_d db user_query else _).
  assert (results
          = first_non_empty
              [ if Py.truthy kw && Py.truthy loc
                then tier_a db kw loc else [];
                if Py.truthy kw then tier_b db kw else [];
                if Py.truthy loc then tier_c db loc else [];
                tier_d db user_query ]) as E.
  { unfold results. cbn [first_non_empty].
    destruct (Py.truthy kw), (Py.truthy loc), (tier_a db kw loc),
      (tier_b db kw), (tier_c db loc), (tier_d db user_query);
      reflexivity. }
  split; [exact E|].
  assert (exists hit, results = top5 hit db
                      /\ (results = [] -> top5 (raw_hit user_query) db = []))
    as (hit & Ehit & Hraw).
  { rewrite E. cbn [first_non_empty].
    unfold tier_a, tier_b, tier_c, tier_d.
    destruct (Py.truthy kw), (Py.truthy loc); cbn [andb is_empty];
      repeat (match goal with
              | |- context [is_empty (top5 ?h db)] =>
                  destruct (top5 h db) eqn:?; cbn [is_empty]
              end);
      eexists; (split; [symmetry; eassumption|]); intros;
      try discriminate; assumption. }
  destruct (top5_facts hit db) as (Hlen & Hin & Hsort & _).
  destruct (top5_facts (raw_hit user_query) db) as (_ & _ & _ & Hnone).
  rewrite Ehit in *. repeat split; auto.
  intros r Hr. now apply Hin.
Qed.

Lemma smart_search_first_non_empty_tier_witness :
  smart_search_business quiet_world sample_db "pizza mumbai" true
  = ([marios], "pizza", "mumbai", false)
  /\ tier_a sample_db "pizza" "mumbai" = []
  /\ tier_b sample_db "pizza" = [marios]
  /\ In marios sample_db.
Proof.
  pose proof (smart_search_first_non_empty_tier quiet_world sample_db
                "pizza mumbai" true) as H.
  assert (smart_search_business quiet_world sample_db "pizza mumbai" true
          = ([marios], "pizza", "mumbai", false)) as E
    by (vm_compute; reflexivity).
  rewrite E in H. destruct H as (_ & _ & _ & Hin & _).
  repeat split; [vm_compute; reflexivity..|].
  apply Hin. now left.
Defined.

(** ** What a [LIKE] on [%term%] matches *)

Lemma startswith_iff p : forall s,
  Py.startswith p s = true <-> exists b, s = p ++ b.
Proof.
  induction p as [|a p IH]; intros s; simpl.
  - split; [intros _; now exists s|reflexivity].
  - destruct s as [|c s]; simpl.
    + split; [discriminate|intros [b Hb]; discriminate].
    + rewrite andb_true_iff, Ascii.eqb_eq, IH. split.
      * intros [-> [b ->]]. now exists b.
      * intros [b Hb]. injection Hb as -> ->. split; [reflexivity|now exists b].
Qed.

(** [Py.contains p s] holds exactly when [p] occurs in [s]. *)
Lemma contains_iff p s :
  Py.contains p s = true <-> exists a b, s = a ++ p ++ b.
Proof.
  induction s as [|c s IH]; simpl.
  - rewrite orb_false_r, startswith_iff. split.
    + intros [b Hb]. now exists EmptyString, b.
    + intros (a & b & H). destruct a; [now exists b|discriminate].
  - rewrite orb_true_iff, IH, startswith_iff. split.
    + intros [[b Hb]|(a & b & ->)].
      * now exists EmptyString, b.
      * now exists (String c a), b.
    + intros ([|c' a] & b & H).
      * left. now exists b.
      * right. injection H as -> ->. now exists a, b.
Qed.

(** No character of the term is one of the two wildcards of [LIKE]. *)
Definition is_wildcard (c : ascii) : bool :=
  Ascii.eqb c "%" || Ascii.eqb c "_".

Definition no_wildcard (term : string) : bool :=
  all_chars (fun c => negb (is_wildcard c)) term.

Lemma like_any_run rest text :
  like (String "%" rest) text
  = like rest text
    || match text with
       | EmptyString => false
       | String _ text' => like (String "%" rest) text'
       end.
Proof. destruct text; reflexivity. Qed.

Lemma like_percent text : like "%" text = true.
Proof.
  induction text as [|c t IH]; [reflexivity|].
  rewrite like_any_run, IH. apply orb_true_r.
Qed.

Lemma like_prefix p : forall text,
  no_wildcard p = true -> like (p ++ "%") text = Py.startswith p text.
Proof.
  induction p as [|a p IH]; intros text Hp.
  - apply like_percent.
  - simpl in Hp. apply andb_true_iff in Hp as [Ha Hp].
    unfold is_wildcard in Ha. apply negb_true_iff, orb_false_iff in Ha.
    destruct Ha as [Ha1 Ha2].
    change (like (String a (p ++ "%")) text = Py.startswith (String a p) text).
    simpl. rewrite Ha1, Ha2. destruct text as [|c t]; [reflexivity|].
    now rewrite IH.
Qed.

Lemma like_contains p text :
  no_wildcard p = true -> like ("%" ++ p ++ "%") text = Py.contains p text.
Proof.
  intros Hp. induction text as [|c t IH].
  - change ("%" ++ p ++ "%") with (String "%" (p ++ "%")).
    rewrite like_any_run, like_prefix by exact Hp. reflexivity.
  - change ("%" ++ p ++ "%") with (String "%" (p ++ "%")) in *.
    rewrite like_any_run, like_prefix, IH by exact Hp. reflexivity.
Qed.

Lemma lower_app a b : Py.lower (a ++ b) = Py.lower a ++ Py.lower b.
Proof. induction a as [|c a IH]; simpl; [reflexivity|now rewrite IH]. Qed.

Lemma is_wildcard_lower c : is_wildcard (Py.lower_char c) = is_wildcard c.
Proof. destruct c as [[] [] [] [] [] [] [] []]; reflexivity. Qed.

Lemma no_wildcard_lower term : no_wildcard (Py.lower term) = no_wildcard term.
Proof.
  unfold no_wildcard.
  induction term as [|c t IH]; [reflexivity|].
  cbn [Py.lower all_chars]. now rewrite is_wildcard_lower, IH.
Qed.

(** X11.  For a term without [%] and [_], a column matches [%term%] exactly when
    the term occurs in it, letter case aside; a NULL column never matches.
    (A term holding a wildcard is matched as a pattern.) *)
Theorem col_like_is_case_insensitive_contains (term : string)
  (col : option string) :
  no_wildcard term = true ->
  col_like term col
  = match col with
    | Some v => Py.contains (Py.lower term) (Py.lower v)
    | None => false
    end.
Proof.
  intros Ht. destruct col as [v|]; [|reflexivity].
  unfold col_like. rewrite !lower_app.
  change (Py.lower "%") with "%".
  apply like_contains. now rewrite no_wildcard_lower.
Qed.

Lemma col_like_is_case_insensitive_contains_witness :
  col_like "Joe's" (Some "JOE'S CAFE") = true
  /\ col_like "j_e" (Some "Joe's Cafe") = true
  /\ Py.contains "j_e" "joe's cafe" = false.
Proof.
  split; [|split; reflexivity].
  rewrite (col_like_is_case_insensitive_contains "Joe's" (Some "JOE'S CAFE"));
    reflexivity.
Defined.

(** ** Which turns write to the table *)

Lemma space_is_no_digit c : Py.isspace c = true -> Py.isdigit c = false.
Proof. destruct c as [[] [] [] [] [] [] [] []]; vm_compute; congruence. Qed.

Lemma digits_lstrip s : digits (Py.lstrip s) = digits s.
Proof.
  induction s as [|c s IH]; simpl; [reflexivity|].
  destruct (Py.isspace c) eqn:E; [|reflexivity].
  now rewrite IH, (space_is_no_digit c E).
Qed.

Lemma digits_rstrip s : digits (Py.rstrip s) = digits s.
Proof.
  induction s as [|c s IH]; [reflexivity|].
  rewrite rstrip_cons. cbn [digits]. rewrite <- IH.
  destruct (Py.rstrip s) as [|d r]; [|reflexivity].
  destruct (Py.isspace c) eqn:E; [|reflexivity].
  now rewrite (space_is_no_digit c E).
Qed.

(** Trimming a phone number does not change its identity key. *)
Lemma digits_strip s : digits (Py.strip s) = digits s.
Proof. unfold Py.strip. now rewrite digits_rstrip, digits_lstrip. Qed.

Lemma lookup_by_digits W db p :
  get_businesses_by_phone W db (Some (digits p))
  = get_businesses_by_phone W db (Some p).
Proof.
  unfold get_businesses_by_phone.
  now rewrite !normalize_phone_Some, digits_idem.
Qed.

Lemma plausible_iff d : plausible d = true <-> (6 <= Py.len d)%nat.
Proof.
  unfold plausible. destruct d as [|c d].
  - simpl. split; [discriminate|lia].
  - cbn [Py.truthy andb]. apply Nat.leb_le.
Qed.

(** The table a handler leaves. *)
Definition turn_store (t : Turn) : Store := snd (fst t).


Section StoreWrites.
Context (W : World).

Lemma handle_show_flow_store user_input db s :
  turn_store (handle_show_flow W user_input db s) = db.
Proof. unfold handle_show_flow, turn_store. repeat branch; reflexivity. Qed.

Lemma handle_search_flow_store user_input db s :
  turn_store (handle_search_flow W user_input db s) = db.
Proof. unfold handle_search_flow, turn_store. repeat branch; reflexivity. Qed.

Lemma direct_search_store user_input db s :
  turn_store (direct_search W user_input db s) = db.
Proof. unfold direct_search, turn_store. repeat branch; reflexivity. Qed.

Lemma handle_update_flow_store user_input db s :
  chat_step s <> 3%nat ->
  turn_store (handle_update_flow W user_input db s) = db.
Proof.
  intros H. unfold handle_update_flow, turn_store.
  destruct (chat_step s) as [|[|[|[|n]]]]; try contradiction;
    repeat branch; reflexivity.
Qed.

Lemma handle_add_flow_store user_input db s :
  chat_step s <> 7%nat ->
  turn_store (handle_add_flow W user_input db s) = db.
Proof.
  intros H. unfold handle_add_flow, turn_store.
  destruct (chat_step s) as [|[|[|[|[|[|[|[|n]]]]]]]]; try contradiction;
    repeat branch; reflexivity.
Qed.
End StoreWrites.

(** X12.  A turn leaves the table as it is unless the session is at the value
    step of the update flow or at the last step of the add flow: greeting,
    classifying, searching, showing, choosing a field, collecting the fields
    of a new business and cancelling never write. *)
Theorem store_written_only_on_submit (W : World) (user_input : string)
  (db : Store) (s : Session) :
  ~ (chat_mode s = Some ModeUpdate /\ chat_step s = 3%nat) ->
  ~ (chat_mode s = Some ModeAdd /\ chat_step s = 7%nat) ->
  turn_store (process_chatbot_response W user_input db s) = db.
Proof.
  intros Hu Ha. unfold process_chatbot_response.
  destruct (chat_mode s) as [m|] eqn:Em.
  - unfold handle_active_flow. rewrite Em.
    destruct (Py.mem _ cancel_words); [reflexivity|].
    destruct m.
    + apply handle_show_flow_store.
    + apply handle_update_flow_store. intros H. now apply Hu.
    + apply handle_add_flow_store. intros H. now apply Ha.
    + apply handle_search_flow_store.
  - destruct (detect_intent user_input); try reflexivity.
    apply direct_search_store.
Qed.

Lemma store_written_only_on_submit_witness :
  turn_store
    (process_chatbot_response quiet_world "find a cafe in pune" sample_db
       initial_session) = sample_db.
Proof.
  apply (store_written_only_on_submit quiet_world "find a cafe in pune"
           sample_db initial_session);
    intros [H _]; discriminate H.
Defined.

(** ** The show flow *)

(** X13.  The show flow takes one phone number.  It never writes.  With
    fewer than six digits the number is refused and the session stays where
    it is; otherwise the flow ends (no mode, step 0, no data), the current
    business becomes the first listing the lookup returns for that number,
    and the reply shows it or says that none was found.  That listing is a
    stored listing with the identity of the number, there is none exactly
    when the table holds no listing with that identity, and it is a most
    recent one when no listing with that identity lacks a [created_at] (with
    a NULL [created_at] among two or more the sort is abandoned, and the
    first of the list it leaves need not be the most recent). *)
Theorem show_flow_one_round_trip (W : World) (user_input : string)
  (db : Store) (s : Session) :
  chat_step s = 1%nat ->
  let '(answer, db', s') := handle_show_flow W user_input db s in
  let same_identity (r : Listing) :=
    digits (Py.or_empty (Listing.phone_number r)) = digits user_input in
  db' = db
  /\ ((Py.len (digits user_input) < 6)%nat ->
      answer = Ret (Some RInvalidPhone) /\ s' = s)
  /\ ((6 <= Py.len (digits user_input))%nat ->
      chat_mode s' = None /\ chat_step s' = 0%nat /\ chat_data s' = ∅
      /\ current_business s'
         = List.head (get_businesses_by_phone W db (Some user_input))
      /\ (current_business s' = None
          <-> forall r, In r db -> ~ same_identity r)
      /\ (forall biz, current_business s' = Some biz ->
            In biz db /\ same_identity biz
            /\ ((forall r, In r db -> same_identity r ->
                            Listing.created_at r <> None) ->
                forall r, In r db -> same_identity r ->
                          at_least_as_recent biz r))
      /\ answer
         = Ret (Some match current_business s' with
                     | Some biz => RBusinessFound biz
                     | None => RNotFound (Py.strip user_input)
                     end)).
Proof.
  intros Hs. unfold handle_show_flow. rewrite Hs.
  rewrite normalize_phone_Some, digits_strip.
  assert (get_businesses_by_phone W db (Some (Py.strip user_input))
          = get_businesses_by_phone W db (Some user_input)) as ->.
  { unfold get_businesses_by_phone.
    now rewrite !normalize_phone_Some, digits_strip. }
  destruct (plausible (digits user_input)) eqn:Ep; cbn [negb].
  - apply plausible_iff in Ep.
    assert (digits user_input <> EmptyString) as Hq.
    { intros E. rewrite E in Ep. simpl in Ep. lia. }
    pose proof (lookup_perm W db user_input Hq) as Hperm.
    pose proof (lookup_sorted W db user_input Hq) as Hsorted.
    destruct (get_businesses_by_phone W db (Some user_input)) as [|b l];
      (split; [reflexivity|]); (split; [lia|]); intros _;
      cbn [chat_mode chat_step chat_data current_business List.head];
      repeat (split; [reflexivity|]); (split; [|split; [|reflexivity]]).
    + split; [|reflexivity]. intros _ r Hin Hkey.
      apply Permutation_nil in Hperm.
      assert (In r (matches_of db user_input)) as Hr
        by now apply matches_of_In.
      now rewrite Hperm in Hr.
    + intros biz Hbiz. discriminate Hbiz.
    + split; [discriminate|]. intros Hnone. exfalso.
      assert (In b (matches_of db user_input)) as Hb
        by (apply (Permutation_in _ Hperm); now left).
      apply matches_of_In in Hb as [Hin Hkey]. now apply (Hnone b).
    + intros biz [= <-].
      assert (In b (matches_of db user_input)) as Hb
        by (apply (Permutation_in _ Hperm); now left).
      apply matches_of_In in Hb as [Hin Hkey].
      split; [exact Hin|]. split; [exact Hkey|].
      intros Hall r Hr Hrkey.
      apply (head_most_recent (matches_of db user_input)).
      * rewrite <- Hsorted; [reflexivity|]. left. exact Hall.
      * now apply matches_of_In.
  - assert (~ (6 <= Py.len (digits user_input))%nat) as Hn.
    { intros H. apply plausible_iff in H. congruence. }
    split; [reflexivity|]. split; [now intros _|lia].
Qed.

Definition asked_for_phone (m : Mode) : Session :=
  {| chat_mode := Some m; chat_step := 1%nat; chat_data := ∅;
     current_business := None |}.

Lemma show_flow_one_round_trip_witness :
  let '(answer, db', s') :=
    handle_show_flow quiet_world " 98733 12399 " sample_db
      (asked_for_phone ModeShow) in
  answer = Ret (Some (RBusinessFound joes_bakery))
  /\ current_business s' = Some joes_bakery /\ chat_mode s' = None
  /\ at_least_as_recent joes_bakery joes_cafe.
Proof.
  pose proof (show_flow_one_round_trip quiet_world " 98733 12399 " sample_db
                (asked_for_phone ModeShow) eq_refl) as H.
  destruct (handle_show_flow quiet_world " 98733 12399 " sample_db
              (asked_for_phone ModeShow)) as [[answer db'] s'].
  cbv zeta in H. destruct H as (_ & _ & H).
  destruct H as (Hm & _ & _ & Hb & _ & Hbiz & Ha); [vm_compute; lia|].
  rewrite Ha, Hb. split; [reflexivity|]. split; [reflexivity|].
  split; [exact Hm|].
  destruct (Hbiz joes_bakery) as (_ & _ & Hrecent); [rewrite Hb; reflexivity|].
  apply Hrecent.
  - intros r Hin _. vm_compute in Hin.
    repeat (destruct Hin as [<-|Hin]; [discriminate|]). destruct Hin.
  - vm_compute. tauto.
  - reflexivity.
Defined.

(** ** The update flow *)


(** A session of the update flow, at the given step, for Joe's Cafe. *)
Definition updating (step : nat) (data : gmap string string) : Session :=
  {| chat_mode := Some ModeUpdate; chat_step := step; chat_data := data;
     current_business := Some joes_cafe |}.


(** X15.  Menu entry 3 cannot be updated: typing "3" at the field menu chooses the
    key [phone], which is not a column the store accepts, so whatever value
    is entered next the write fails, the table is untouched and the flow
    stays at the value step.  (Typing "phone" chooses [phone_number].) *)
Theorem update_menu_entry_3_never_updates (W : World) (user_input : string)
  (db : Store) (s : Session) (new_value : string) (biz : Listing) :
  chat_step s = 2%nat -> current_business s = Some biz ->
  Py.lower (Py.strip user_input) = "3" ->
  Py.strip new_value <> EmptyString ->
  let '(_, db2, s2) := handle_update_flow W user_input db s in
  let '(answer, db3, s3) := handle_update_flow W new_value db2 s2 in
  chat_data s2 !! "update_field" = Some "phone"
  /\ chat_step s2 = 3%nat
  /\ answer = Ret (Some (RUpdateFailed "phone"))
  /\ db3 = db /\ s3 = s2.
Proof.
  intros Hs Hb Hin Hv. unfold handle_update_flow at 1.
  rewrite Hs, Hin.
  change (Py.mem "3" done_words) with false.
  change (field_mapping "3") with (Some "phone").
  cbn [current_business set_step set_data]. rewrite Hb. cbn [reply].
  unfold handle_update_flow.
  cbn [chat_step set_step set_data chat_data current_business].
  rewrite lookup_insert_eq. cbn [Py.or_empty Py.truthy negb].
  destruct (Py.strip new_value) as [|c v] eqn:Ev; [contradiction|].
  cbn [Py.truthy negb]. unfold apply_update.
  cbn [chat_step set_step set_data chat_data current_business].
  assert (forall db0 bid ph,
            update_business W db0 bid
              (Some {[ "phone" := Some (String c v) ]}) ph = (false, db0))
    as Hfail.
  { intros db0 bid ph.
    apply update_business_no_allowed_key. intros k [x Hx].
    apply lookup_singleton_Some in Hx as [<- _].
    vm_compute. intuition discriminate. }
  rewrite Hb.
  destruct (Listing.id biz); rewrite ?Hfail; cbn [negb andb];
    destruct (Py.truthy _); rewrite ?Hfail; cbn [reply];
    repeat split; reflexivity.
Qed.

Lemma update_menu_entry_3_never_updates_witness :
  let s := updating 2 {[ "phone" := "98733 12399" ]} in
  let '(_, db2, s2) := handle_update_flow quiet_world "3" sample_db s in
  let '(answer, db3, s3) :=
    handle_update_flow quiet_world "555 000 1111" db2 s2 in
  chat_data s2 !! "update_field" = Some "phone"
  /\ chat_step s2 = 3%nat
  /\ answer = Ret (Some (RUpdateFailed "phone"))
  /\ db3 = sample_db /\ s3 = s2.
Proof.
  cbv zeta.
  apply (update_menu_entry_3_never_updates quiet_world "3" sample_db
           (updating 2 {[ "phone" := "98733 12399" ]}) "555 000 1111"
           joes_cafe); try reflexivity.
  discriminate.
Defined.

(** ** The add flow *)

(** The value step 4 of the add flow stores for the website. *)
Definition website_value (user_input : string) : string :=
  let website := Py.strip user_input in
  if Py.mem (Py.lower website) website_skip_words then EmptyString
  else website.

(** An utterance the dispatcher does not take for a cancellation. *)
Definition not_cancel (user_input : string) : Prop :=
  Py.mem (Py.strip (Py.lower user_input)) cancel_words = false.

(** A field the add flow accepts: at least [n] characters once trimmed. *)
Definition long_enough (n : nat) (user_input : string) : Prop :=
  (n <= Py.len (Py.strip user_input))%nat.

Lemma long_enough_check n user_input :
  (0 < n)%nat -> long_enough n user_input ->
  negb (Py.truthy (Py.strip user_input))
  || (Py.len (Py.strip user_input) <? n)%nat = false.
Proof.
  unfold long_enough. intros Hn H.
  destruct (Py.strip user_input); simpl in *; [lia|].
  apply Nat.ltb_ge. exact H.
Qed.

Lemma website_value_empty_iff w :
  website_value w = EmptyString
  <-> In (Py.lower (Py.strip w)) website_skip_words.
Proof.
  unfold website_value.
  destruct (Py.mem (Py.lower (Py.strip w)) website_skip_words) eqn:M.
  - apply mem_true_iff in M. tauto.
  - split.
    + intros E. rewrite E in M. discriminate M.
    + intros H. apply mem_true_iff in H. congruence.
Qed.

(** City and state are left empty for an empty answer and for "skip" and
    "none" only; any other answer is stored as typed. *)
Lemma place_value_cases x :
  (place_value x = EmptyString
   <-> x = EmptyString \/ In (Py.lower x) place_skip_words)
  /\ (place_value x <> EmptyString -> place_value x = x).
Proof.
  unfold place_value. destruct x as [|c x]; [simpl; tauto|].
  cbn [Py.truthy andb].
  destruct (Py.mem (Py.lower (String c x)) place_skip_words) eqn:M;
    cbn [negb].
  - apply mem_true_iff in M. tauto.
  - split; [|reflexivity]. split; [discriminate|].
    intros [H|H]; [discriminate|]. apply mem_true_iff in H. congruence.
Qed.

Section AddRun.
Context (W : World).

Lemma add_turn user_input db s :
  chat_mode s = Some ModeAdd -> not_cancel user_input ->
  turn W (db, s) user_input
  = let '(_, db', s') := handle_add_flow W user_input db s in (db', s').
Proof.
  intros Hm Hc. unfold turn, process_chatbot_response, handle_active_flow.
  cbn [fst snd]. now rewrite Hm, Hc.
Qed.
End AddRun.

(** X16.  Round trip through the add flow.  Seven answers, none of them a cancel
    word, with a name and a category of at least 2 characters, a phone number
    of at least 6 digits that no stored listing has, and an address of at
    least 5 characters, end with one new row at the end of the table, the
    session reset, and a lookup by that phone number finding exactly the new
    listing.  Its phone number is the digit-only key; its website is empty
    exactly for the answers "skip", "none", "n/a", "-" and the empty one;
    its city and its state are empty exactly for "skip", "none" and the
    empty answer, and otherwise hold the answer as typed (so "n/a" and "-"
    are stored as city or state). *)
Theorem add_flow_round_trip (W : World) (db : Store) (s : Session)
  (name phone address website category city state : string) :
  chat_mode s = Some ModeAdd -> chat_step s = 1%nat ->
  Forall not_cancel [name; phone; address; website; category; city; state] ->
  long_enough 2 name -> (6 <= Py.len (digits phone))%nat ->
  long_enough 5 address -> long_enough 2 category ->
  (forall r, In r db ->
     digits (Py.or_empty (Listing.phone_number r)) <> digits phone) ->
  let row := new_row W db (Py.strip name) (Py.strip address) (digits phone)
               (website_value website) (Py.strip category) EmptyString
               (place_value (Py.strip city)) (place_value (Py.strip state))
               EmptyString in
  insert_error W db row = None ->
  let '(db', s') :=
    converse W (db, s)
      [name; phone; address; website; category; city; state] in
  db' = (db ++ [row])%list
  /\ get_businesses_by_phone W db' (Some phone) = [row]
  /\ s' = initial_session
  /\ Listing.phone_number row = Some (digits phone)
  /\ (Listing.website row = Some EmptyString
      <-> In (Py.lower (Py.strip website)) website_skip_words)
  /\ (Listing.city row = Some EmptyString
      <-> Py.strip city = EmptyString
          \/ In (Py.lower (Py.strip city)) place_skip_words)
  /\ (Listing.state row = Some EmptyString
      <-> Py.strip state = EmptyString
          \/ In (Py.lower (Py.strip state)) place_skip_words).
Proof.
  intros Hm Hs Hc Hname Hphone Haddr Hcat Hnone row Herr.
  repeat match goal with
         | H : Forall _ (_ :: _) |- _ =>
             apply List.Forall_cons_iff in H; destruct H as [? H]
         end.
  unfold converse. cbn [fold_left].
  (* name *)
  rewrite add_turn by assumption. unfold handle_add_flow at 1. rewrite Hs.
  rewrite (long_enough_check 2 name) by (lia || assumption).
  cbn [reply].
  (* phone *)
  rewrite add_turn by (assumption || reflexivity).
  unfold handle_add_flow at 1. cbn [chat_step set_step].
  rewrite normalize_phone_Some, digits_strip.
  rewrite (proj2 (plausible_iff (digits phone)) Hphone).
  cbn [negb reply].
  (* address *)
  rewrite add_turn by (assumption || reflexivity).
  unfold handle_add_flow at 1. cbn [chat_step set_step].
  rewrite (long_enough_check 5 address) by (lia || assumption).
  cbn [reply].
  (* website *)
  rewrite add_turn by (assumption || reflexivity).
  unfold handle_add_flow at 1. cbn [chat_step set_step reply].
  match goal with
  | |- context [set_step 5 ?x] =>
      replace x with
        (set_data "website" (website_value website)
           (set_step 4
              (set_data "address" (Py.strip address)
                 (set_step 3
                    (set_data "phone_number" (digits phone)
                       (set_step 2 (set_data "name" (Py.strip name) s)))))))
        by (unfold website_value; now destruct (Py.mem _ website_skip_words))
  end.
  (* category *)
  rewrite add_turn by (assumption || reflexivity).
  unfold handle_add_flow at 1. cbn [chat_step set_step].
  rewrite (long_enough_check 2 category) by (lia || assumption).
  cbn [reply].
  (* city *)
  rewrite add_turn by (assumption || reflexivity).
  unfold handle_add_flow at 1. cbn [chat_step set_step reply].
  (* state, and the insert *)
  rewrite add_turn by (assumption || reflexivity).
  unfold handle_add_flow at 1. cbn [chat_step set_step].
  unfold submit_business.
  cbn [chat_data set_data set_step].
  unfold data_get.
  repeat (rewrite lookup_insert_eq ||
          (rewrite lookup_insert_ne by discriminate)).
  cbn [default].
  pose proof (add_business_fresh_key W db (Py.strip name)
                (Py.strip address) (digits phone) (website_value website)
                (Py.strip category) EmptyString (place_value (Py.strip city))
                (place_value (Py.strip state)) EmptyString) as Hadd.
  cbv zeta in Hadd. rewrite digits_idem in Hadd.
  fold row in Hadd.
  destruct Hadd as (Hid & Hdb & Hlook); [| exact Hnone | exact Herr |].
  { intros E. rewrite E in Hphone. simpl in Hphone. lia. }
  destruct (add_business W db _ _ _ _ _ _ _ _ _) as [out db'] eqn:Eadd.
  cbn [fst snd] in Hid, Hdb, Hlook. subst out. cbn [truthy_id].
  cbn [Z.eqb reply]. rewrite <- lookup_by_digits, Hlook.
  split; [exact Hdb|]. split; [reflexivity|]. split; [reflexivity|].
  split; [reflexivity|].
  unfold row, new_row.
  cbn [Listing.website Listing.city Listing.state].
  split; [|split].
  - rewrite <- website_value_empty_iff. split; congruence.
  - rewrite <- (proj1 (place_value_cases (Py.strip city))).
    split; congruence.
  - rewrite <- (proj1 (place_value_cases (Py.strip state))).
    split; congruence.
Qed.

Lemma add_flow_round_trip_witness :
  let '(db', s') :=
    converse quiet_world (sample_db, asked_for_phone ModeAdd)
      ["Asha Diner"; "020 5550 123"; "4 Mill Road"; "-"; "Restaurant";
       "n/a"; "skip"] in
  option_map (fun r => (Listing.phone_number r, Listing.website r,
                        Listing.city r, Listing.state r))
    (List.head
       (get_businesses_by_phone quiet_world db' (Some "020 5550 123")))
  = Some (Some "0205550123", Some "", Some "n/a", Some "")
  /\ s' = initial_session.
Proof.
  pose proof (add_flow_round_trip quiet_world sample_db
                (asked_for_phone ModeAdd) "Asha Diner" "020 5550 123"
                "4 Mill Road" "-" "Restaurant" "n/a" "skip") as H.
  cbv zeta in H.
  destruct (converse quiet_world (sample_db, asked_for_phone ModeAdd) _)
    as [db' s'].
  destruct H as (_ & Hlook & Hs & _); try reflexivity.
  - repeat constructor.
  - vm_compute. lia.
  - vm_compute. lia.
  - vm_compute. lia.
  - vm_compute. lia.
  - intros r Hin. vm_compute in Hin.
    repeat (destruct Hin as [<-|Hin]; [vm_compute; discriminate|]).
    destruct Hin.
  - rewrite Hlook. split; [reflexivity|exact Hs].
Defined.

(** ** Editing a field: what the session shows afterwards *)

(** The keys of [ALLOWED_FIELDS] are the text columns [biz_get] reads. *)
Lemma biz_get_set_columns f r k :
  In k ALLOWED_FIELDS ->
  biz_get (set_columns f r) k
  = match f !! k with Some v => Some v | None => biz_get r k end.
Proof.
  intros H. simpl in H.
  repeat (destruct H as [<-|H]; [reflexivity|]). destruct H.
Qed.

Lemma filter_updates_single k v :
  In k ALLOWED_FIELDS ->
  filter_updates {[ k := Some v ]} = {[ k := clean_update k (Some v) ]}.
Proof.
  intros H. apply mem_true_iff in H. apply map_eq. intros j.
  unfold filter_updates. rewrite map_lookup_imap.
  destruct (decide (k = j)) as [<-|Hne].
  - rewrite !lookup_singleton_eq. cbn [mbind option_bind]. now rewrite H.
  - now rewrite !lookup_singleton_ne by exact Hne.
Qed.

Lemma single_not_empty (k v : string) : ({[ k := v ]} : gmap string string) <> ∅.
Proof. apply insert_non_empty. Qed.

Lemma set_columns_other_phone k v r :
  k <> "phone_number" ->
  Listing.phone_number (set_columns {[ k := v ]} r) = Listing.phone_number r.
Proof.
  intros H. cbn. now rewrite lookup_singleton_ne by exact H.
Qed.

(** What the [UPDATE] makes of a row. *)
Definition write_row (f : gmap string string) (ids : list positive)
  (r : Listing) : Listing :=
  if rowid_in ids r then set_columns f r else r.

Lemma update_by_id_table (W : World) db i u ph r :
  get_business_by_id db i = Some r ->
  filter_updates u <> ∅ ->
  update_error W db (filter_updates u) [Listing.rowid r] = None ->
  update_business W db (Some i) (Some u) ph
  = (true, List.map (write_row (filter_updates u) [Listing.rowid r]) db).
Proof.
  intros Hget Hf Herr.
  assert (List.find (has_id i) db = Some r) as Hfind by exact Hget.
  assert (find_matching_rowids db (Some i) ph = [Listing.rowid r]) as Hids.
  { unfold find_matching_rowids, rowids_by_id. now rewrite Hfind. }
  apply find_some in Hfind as [Hin _].
  destruct (update_business_cases W db (Some i) (Some u) ph)
    as [E|(u' & Hu & _ & E)].
  - exfalso. unfold update_business in E.
    destruct (decide (u = ∅)) as [->|_];
      [now rewrite filter_updates_empty in Hf|].
    destruct (decide (filter_updates u = ∅)); [contradiction|].
    rewrite Hids, Herr in E. unfold sql_update in E.
    injection E as E _. apply Nat.ltb_ge in E.
    assert (In r (List.filter (rowid_in [Listing.rowid r]) db)) as Hin'.
    { apply filter_In. split; [exact Hin|now apply rowid_in_head]. }
    destruct (List.filter (rowid_in [Listing.rowid r]) db);
      [destruct Hin'|simpl in E; lia].
  - injection Hu as <-. rewrite E, Hids. reflexivity.
Qed.

Lemma get_by_id_after_write f db i r :
  get_business_by_id db i = Some r ->
  get_business_by_id (List.map (write_row f [Listing.rowid r]) db) i
  = Some (set_columns f r).
Proof.
  intros Hget. unfold get_business_by_id in *.
  rewrite find_map_same.
  - rewrite Hget. cbn [option_map]. unfold write_row.
    now rewrite (rowid_in_head (Listing.rowid r) [] r eq_refl).
  - intros x. unfold write_row.
    destruct (rowid_in [Listing.rowid r] x); reflexivity.
Qed.

Lemma find_unique {A} (p : A -> bool) l x :
  In x l -> p x = true -> (forall y, In y l -> p y = true -> y = x) ->
  List.find p l = Some x.
Proof.
  intros Hin Hp Hu. destruct (List.find p l) as [y|] eqn:E.
  - apply find_some in E as [Hy Hpy]. now rewrite (Hu y Hy Hpy).
  - now rewrite (find_none _ _ E x Hin) in Hp.
Qed.

(** X17.  After a successful edit of a field other than the phone number,
    the current business is read again from the table: when the session's
    business is the one listing with its [id], stored under the phone number
    the flow was opened with, and the write meets no error, the flow is back
    at step 2 with the updated listing as current business, and both the
    menu answered and a lookup by [id] show the new, trimmed value. *)
Theorem update_refreshes_current_business (W : World) (user_input : string)
  (db : Store) (s : Session) (field_key p : string) (b r : Listing) (i : Z) :
  chat_step s = 3%nat ->
  chat_data s !! "update_field" = Some field_key ->
  In field_key ALLOWED_FIELDS -> field_key <> "phone_number" ->
  Py.strip user_input <> EmptyString ->
  current_business s = Some b -> Listing.id b = Some i ->
  get_business_by_id db i = Some r ->
  (forall x, In x db -> Listing.id x = Some i -> x = r) ->
  chat_data s !! "phone" = Some p -> digits p <> EmptyString ->
  digits (Py.or_empty (Listing.phone_number r)) = digits p ->
  let f : gmap string string := {[ field_key := Py.strip user_input ]} in
  update_error W db f [Listing.rowid r] = None ->
  let biz := set_columns f r in
  let '(answer, db', s') := handle_update_flow W user_input db s in
  answer = Ret (Some (RUpdated field_key (Py.strip user_input) biz
                        (update_menu biz)))
  /\ chat_mode s' = chat_mode s /\ chat_step s' = 2%nat
  /\ current_business s' = Some biz
  /\ biz_get biz field_key = Some (Py.strip user_input)
  /\ get_business_by_id db' i = Some biz.
Proof.
  intros Hstep Hfield Hk Hnp Hv Hb Hid Hget Huniq Hphone Hp Hsame f Herr biz.
  assert (filter_updates {[ field_key := Some (Py.strip user_input) ]} = f)
    as Hf.
  { rewrite filter_updates_single by exact Hk. unfold f, clean_update.
    apply String.eqb_neq in Hnp. now rewrite Hnp, strip_idem. }
  assert (f <> ∅) as Hne by apply single_not_empty.
  pose proof (update_by_id_table W db i
                {[ field_key := Some (Py.strip user_input) ]} None r Hget)
    as Htable.
  rewrite Hf in Htable. specialize (Htable Hne Herr).
  pose proof (get_by_id_after_write f db i r Hget) as Hread.
  unfold handle_update_flow. rewrite Hstep, Hfield. cbn [Py.or_empty].
  assert (Py.truthy field_key = true) as ->.
  { destruct field_key; [|reflexivity]. simpl in Hk. intuition discriminate. }
  assert (Py.truthy (Py.strip user_input) = true) as ->.
  { destruct (Py.strip user_input); [contradiction|reflexivity]. }
  cbn [negb]. unfold apply_update. rewrite Hb, Hid, Hphone, Htable.
  cbn [negb andb Py.or_empty].
  assert (Py.truthy p = true) as ->.
  { destruct p; [contradiction|reflexivity]. }
  set (db1 := List.map (write_row f [Listing.rowid r]) db) in *.
  apply find_some in Hget as Hr. destruct Hr as [Hin _].
  assert (write_row f [Listing.rowid r] r = biz) as Hwr.
  { unfold write_row.
    now rewrite (rowid_in_head (Listing.rowid r) [] r eq_refl). }
  assert (forall y, In y db1 -> Listing.id y = Some i -> y = biz) as Hu1.
  { intros y Hy Hyid. apply in_map_iff in Hy as (x & <- & Hx).
    assert (Listing.id x = Some i) as Hxid.
    { unfold write_row in Hyid. now destruct (rowid_in _ x). }
    now rewrite (Huniq x Hx Hxid). }
  assert (In biz (get_businesses_by_phone W db1 (Some p))) as Hfound.
  { apply (Permutation_in _ (Permutation_sym (lookup_perm W db1 p Hp))).
    apply matches_of_In. split; [rewrite <- Hwr; now apply in_map|].
    unfold biz, f. now rewrite set_columns_other_phone by exact Hnp. }
  assert (same_business (Some i) (get_businesses_by_phone W db1 (Some p))
          = Some biz) as ->.
  { unfold same_business. rewrite (find_unique _ _ biz); [reflexivity| | |].
    - exact Hfound.
    - destruct (decide (Listing.id biz = Some i)) as [|N]; [reflexivity|].
      exfalso. apply N. unfold biz. now apply find_some in Hget as [_ Hi];
        unfold has_id in *; cbn; destruct (Listing.id r) as [j|];
        [apply Z.eqb_eq in Hi; subst|discriminate].
    - intros y Hy Hpy. apply Hu1.
      + apply lookup_In in Hy. tauto.
      + now destruct (decide (Listing.id y = Some i)). }
  cbn [reply]. repeat split; try reflexivity.
  - unfold biz. rewrite biz_get_set_columns by exact Hk.
    unfold f. now rewrite lookup_singleton_eq.
  - exact Hread.
Qed.

Lemma rowid_in_single_false (i : positive) (x : Listing) :
  rowid_in [i] x = false -> Listing.rowid x <> i.
Proof.
  unfold rowid_in. simpl. rewrite orb_false_r. now apply Pos.eqb_neq.
Qed.

Lemma set_columns_phone v r :
  Listing.phone_number (set_columns {[ "phone_number" := v ]} r) = Some v.
Proof. cbn [Listing.phone_number set_columns]. now rewrite lookup_singleton_eq. Qed.

(** X18.  The refresh looks the listing up by the phone number the flow was
    opened with.  So when the phone number itself is changed to one with
    another key, and no other listing has the old key, the write succeeds and
    the table holds the new number, but the lookup by the old number finds
    nothing: the current business, and the menu answered, are still the
    listing as it was before the edit. *)
Theorem phone_change_is_not_refreshed (W : World) (user_input : string)
  (db : Store) (s : Session) (p : string) (b r : Listing) (i : Z) :
  chat_step s = 3%nat ->
  chat_data s !! "update_field" = Some "phone_number" ->
  Py.strip user_input <> EmptyString ->
  current_business s = Some b -> Listing.id b = Some i ->
  get_business_by_id db i = Some r ->
  chat_data s !! "phone" = Some p -> digits p <> EmptyString ->
  digits user_input <> digits p ->
  (forall x, In x db -> Listing.rowid x <> Listing.rowid r ->
     digits (Py.or_empty (Listing.phone_number x)) <> digits p) ->
  let f : gmap string string := {[ "phone_number" := digits user_input ]} in
  update_error W db f [Listing.rowid r] = None ->
  let '(answer, db', s') := handle_update_flow W user_input db s in
  answer = Ret (Some (RUpdated "phone_number" (Py.strip user_input) b
                        (update_menu b)))
  /\ chat_step s' = 2%nat
  /\ current_business s' = Some b
  /\ get_business_by_id db' i = Some (set_columns f r)
  /\ Listing.phone_number (set_columns f r) = Some (digits user_input)
  /\ get_businesses_by_phone W db' (Some p) = [].
Proof.
  intros Hstep Hfield Hv Hb Hid Hget Hphone Hp Hnew Hother f Herr.
  assert (In "phone_number" ALLOWED_FIELDS) as Hk by (simpl; tauto).
  assert (filter_updates {[ "phone_number" := Some (Py.strip user_input) ]}
          = f) as Hf.
  { rewrite filter_updates_single by exact Hk. unfold f, clean_update.
    change ("phone_number" =? "phone_number")%string with true.
    cbv iota. now rewrite normalize_phone_Some, !digits_strip. }
  assert (f <> ∅) as Hne by apply single_not_empty.
  pose proof (update_by_id_table W db i
                {[ "phone_number" := Some (Py.strip user_input) ]} None r
                Hget) as Htable.
  rewrite Hf in Htable. specialize (Htable Hne Herr).
  pose proof (get_by_id_after_write f db i r Hget) as Hread.
  unfold handle_update_flow. rewrite Hstep, Hfield.
  cbn [Py.or_empty Py.truthy negb].
  assert (Py.truthy (Py.strip user_input) = true) as ->.
  { destruct (Py.strip user_input); [contradiction|reflexivity]. }
  cbn [negb]. unfold apply_update. rewrite Hb, Hid, Hphone, Htable.
  cbn [negb andb Py.or_empty].
  assert (Py.truthy p = true) as ->.
  { destruct p; [contradiction|reflexivity]. }
  set (db1 := List.map (write_row f [Listing.rowid r]) db) in *.
  assert (get_businesses_by_phone W db1 (Some p) = []) as Hgone.
  { assert (matches_of db1 p = []) as Hempty;
      [|rewrite (lookup_short W db1 p Hp); rewrite Hempty;
        [reflexivity|cbn [List.length]; lia]].
    unfold matches_of, db1. clear - Hother Hnew.
    induction db as [|x l IH]; [reflexivity|].
    cbn [List.map List.filter].
    rewrite IH by (intros y Hy; apply Hother; now right).
    assert (phone_matches (digits p) (write_row f [Listing.rowid r] x)
            = false) as ->; [|reflexivity].
    destruct (phone_matches _ _) eqn:E; [|reflexivity].
    apply phone_matches_iff in E. exfalso. unfold write_row in E.
    destruct (rowid_in [Listing.rowid r] x) eqn:Er.
    - unfold f in E. rewrite set_columns_phone in E.
      cbn [Py.or_empty] in E. rewrite digits_idem in E. contradiction.
    - apply rowid_in_single_false in Er.
      now apply (Hother x (or_introl eq_refl) Er). }
  rewrite Hgone. cbn [same_business List.find List.head reply].
  repeat split; try reflexivity; [exact Hb|exact Hread|exact Hgone].
Qed.

Lemma update_refreshes_current_business_witness :
  let s := updating 3 {[ "phone" := "98733 12399";
                         "update_field" := "website" ]} in
  let '(answer, db', s') :=
    handle_update_flow quiet_world " joes.example " sample_db s in
  chat_step s' = 2%nat
  /\ option_map Listing.website (current_business s')
     = Some (Some "joes.example")
  /\ option_map Listing.website (get_business_by_id db' 1)
     = Some (Some "joes.example").
Proof.
  cbv zeta.
  pose proof (update_refreshes_current_business quiet_world " joes.example "
                sample_db
                (updating 3 {[ "phone" := "98733 12399";
                               "update_field" := "website" ]})
                "website" "98733 12399" joes_cafe joes_cafe 1) as H.
  cbv zeta in H.
  destruct (handle_update_flow quiet_world " joes.example " sample_db _)
    as [[answer db'] s'].
  destruct H as (_ & _ & Hs & Hb & _ & Hr); try reflexivity;
    try discriminate.
  - vm_compute. tauto.
  - intros x Hin Hid. vm_compute in Hin.
    repeat (destruct Hin as [<-|Hin]; [reflexivity || discriminate Hid|]).
    destruct Hin.
  - rewrite Hs, Hb, Hr. repeat split; reflexivity.
Defined.

Lemma phone_change_is_not_refreshed_witness :
  let s := updating 3 {[ "phone" := "98733 12399";
                         "update_field" := "phone_number" ]} in
  let '(answer, db', s') :=
    handle_update_flow quiet_world "555 000 1111" [joes_cafe; marios] s in
  option_map Listing.phone_number (current_business s')
  = Some (Some "98733 12399")
  /\ option_map Listing.phone_number (get_business_by_id db' 1)
     = Some (Some "5550001111").
Proof.
  cbv zeta.
  pose proof (phone_change_is_not_refreshed quiet_world "555 000 1111"
                [joes_cafe; marios]
                (updating 3 {[ "phone" := "98733 12399";
                               "update_field" := "phone_number" ]})
                "98733 12399" joes_cafe joes_cafe 1) as H.
  cbv zeta in H.
  destruct (handle_update_flow quiet_world "555 000 1111" _ _)
    as [[answer db'] s'].
  destruct H as (_ & _ & Hb & Hr & _); try reflexivity; try discriminate.
  - intros x Hin Hrow. vm_compute in Hin.
    destruct Hin as [<-|[<-|[]]]; [now contradiction Hrow|discriminate].
  - rewrite Hb, Hr. split; reflexivity.
Defined.

(** ** The search flow *)

(** X19.  The search flow takes one query.  It never writes.  A query of
    fewer than two characters is refused and the session stays where it is.
    Any longer query ends the flow with the session reset, whatever the
    online search does: local results are answered as they are, without
    going online; without local results, an online search that raises is
    answered with its error message. *)
Theorem search_flow_always_ends (W : World) (user_input : string)
  (db : Store) (s : Session) :
  chat_step s = 1%nat ->
  let query := Py.strip user_input in
  let '(answer, db', s') := handle_search_flow W user_input db s in
  db' = db
  /\ ((Py.len query < 2)%nat -> answer = Ret (Some RBadQuery) /\ s' = s)
  /\ ((2 <= Py.len query)%nat ->
      s' = initial_session
      /\ let '(results, keyword, location, was_corrected) :=
           smart_search_business W db query true in
         (results <> [] ->
          answer = Ret (Some (RFound results keyword location was_corrected)))
         /\ (results = [] ->
             forall msg,
               search_online W (online_query keyword location query)
               = inl msg ->
               answer = Ret (Some (ROnlineFailed query msg)))).
Proof.
  intros Hs. cbv zeta. unfold handle_search_flow. rewrite Hs.
  destruct (negb (Py.truthy (Py.strip user_input))
            || (Py.len (Py.strip user_input) <? 2)%nat) eqn:Ebad.
  - split; [reflexivity|]. split; [now intros _|].
    intros H. exfalso. apply orb_true_iff in Ebad as [E|E].
    + destruct (Py.strip user_input); [simpl in H; lia|discriminate].
    + apply Nat.ltb_lt in E. lia.
  - apply orb_false_iff in Ebad as [_ E]. apply Nat.ltb_ge in E.
    pose proof (smart_search_at_most_five W db (Py.strip user_input) true)
      as Hlen.
    destruct (smart_search_business W db (Py.strip user_input) true)
      as [[[results kw] loc] wc].
    cbn [fst] in Hlen.
    destruct results as [|r rs]; cbn [is_empty negb].
    + destruct (search_online W _) as [msg|[|o os]] eqn:Eon; cbn [reply].
      * split; [reflexivity|]. split; [lia|]. intros _.
        split; [reflexivity|]. split; [congruence|].
        intros _ msg' H. now injection H as <-.
      * destruct (correct_spelling W db _) as [[? ?] ?]. cbn [reply].
        split; [reflexivity|]. split; [lia|]. intros _.
        split; [reflexivity|]. split; [congruence|]. intros _ msg H.
        discriminate H.
      * split; [reflexivity|]. split; [lia|]. intros _.
        split; [reflexivity|]. split; [congruence|]. intros _ msg H.
        discriminate H.
    + cbn [reply]. split; [reflexivity|]. split; [lia|]. intros _.
      split; [reflexivity|]. split; [|discriminate].
      intros _. now rewrite firstn_all2 by exact Hlen.
Qed.

(** A world like the quiet one, in which the online search raises. *)
Definition offline_world : World :=
  {| get_close_matches := fun _ _ _ => [];
     search_online := fun _ => inl "connection refused";
     rank_online_results := fun l => l;
     utcnow := fun _ => "2026-01-01 00:00:00";
     insert_error := fun _ _ => None;
     update_error := fun _ _ _ => None;
     aborted_sort := fun l => l;
     aborted_sort_same := fun l => Permutation_refl l |}.

Lemma search_flow_always_ends_witness :
  handle_search_flow offline_world " plumber " sample_db
    (asked_for_phone ModeSearch)
  = (Ret (Some (ROnlineFailed "plumber" "connection refused")), sample_db,
     initial_session).
Proof.
  pose proof (search_flow_always_ends offline_world " plumber " sample_db
                (asked_for_phone ModeSearch) eq_refl) as H.
  cbv zeta in H.
  destruct (handle_search_flow offline_world " plumber " sample_db _)
    as [[answer db'] s'].
  destruct H as (-> & _ & H). destruct H as [-> H]; [vm_compute; lia|].
  assert (smart_search_business offline_world sample_db
            (Py.strip " plumber ") true = ([], "plumber", "", false)) as E
    by (vm_compute; reflexivity).
  rewrite E in H. destruct H as [_ H].
  now rewrite (H eq_refl "connection refused" eq_refl).
Defined.

(** ** business/business_by_phone.py: the latest business *)

(** [ORDER BY id DESC]: [x] sorts strictly ahead of [y]; a NULL [id] is
    below every value. *)
Definition higher_id (x y : Listing) : bool :=
  match compare_null Z.compare (Listing.id x) (Listing.id y) with
  | Gt => true
  | _ => false
  end.

(** [get_latest_business]:
    [SELECT * FROM google_maps_listings ORDER BY id DESC LIMIT 1]. *)
Definition get_latest_business (db : Store) : option Listing :=
  List.head (sort_stable higher_id db).

Lemma sorted_by_lawful {A} (cmp : A -> A -> comparison) l :
  lawful cmp ->
  StronglySorted (fun x y => cmp x y <> Lt)
    (sort_stable (fun x y => match cmp x y with Gt => true | _ => false end)
       l).
Proof.
  intros [Ha Ht He].
  eapply StronglySorted_weaken; [|apply sort_stable_sorted].
  - intros x y H. unfold not_behind in H. rewrite Ha.
    destruct (cmp y x); simpl; congruence.
  - intros x y. rewrite (Ha y x). destruct (cmp x y); simpl; congruence.
  - intros x y z. unfold not_behind. intros Hyx Hzy.
    destruct (cmp z x) eqn:Ezx; try reflexivity. exfalso.
    destruct (cmp z y) eqn:Ezy; try discriminate.
    + rewrite (He z y x Ezy) in Ezx. now rewrite Ezx in Hyx.
    + assert (cmp x z = Lt) as Exz by (rewrite Ha, Ezx; reflexivity).
      pose proof (Ht x z y Exz Ezy) as Exy.
      rewrite (Ha y x), Exy in Hyx. discriminate.
Qed.

Lemma lawful_refl {A} (cmp : A -> A -> comparison) x :
  lawful cmp -> cmp x x = Eq.
Proof.
  intros [Ha _ _]. pose proof (Ha x x) as H.
  destruct (cmp x x); simpl in H; congruence.
Qed.

(** X20.  [get_latest_business] finds nothing exactly when the table is
    empty; otherwise it returns a stored listing, and no stored listing has a
    larger [id] (a NULL [id] counting below every number). *)
Theorem get_latest_business_is_max_id (db : Store) :
  (get_latest_business db = None <-> db = [])
  /\ (forall r, get_latest_business db = Some r ->
        In r db
        /\ forall x, In x db ->
             compare_null Z.compare (Listing.id x) (Listing.id r) <> Gt).
Proof.
  unfold get_latest_business.
  pose proof (sort_stable_perm higher_id db) as Hperm.
  pose proof (sorted_by_lawful
                (fun x y => compare_null Z.compare (Listing.id x)
                              (Listing.id y))
                db (lawful_on Listing.id _ (lawful_null _ lawful_Z)))
    as Hsort.
  change (sort_stable _ db) with (sort_stable higher_id db) in Hsort.
  destruct (sort_stable higher_id db) as [|r l] eqn:E; cbn [List.head].
  - apply Permutation_nil in Hperm. subst db.
    split; [tauto|discriminate].
  - split.
    + split; [discriminate|]. intros ->.
      symmetry in Hperm. now apply Permutation_nil in Hperm.
    + intros r' H. injection H as <-. split.
      * apply (Permutation_in _ Hperm). now left.
      * intros x Hx. apply (Permutation_in _ (Permutation_sym Hperm)) in Hx.
        destruct (lawful_on Listing.id _ (lawful_null _ lawful_Z))
          as [Ha _ _].
        destruct Hx as [<-|Hx].
        -- rewrite (lawful_refl _ (Listing.id r) (lawful_null _ lawful_Z)).
           discriminate.
        -- inversion Hsort as [|? ? _ Hall]; subst.
           rewrite List.Forall_forall in Hall. specialize (Hall x Hx).
           cbv beta in Hall. rewrite (Ha x r).
           destruct (compare_null Z.compare (Listing.id r) (Listing.id x));
             simpl; congruence.
Qed.

Lemma get_latest_business_is_max_id_witness :
  get_latest_business sample_db = Some unlisted
  /\ In unlisted sample_db.
Proof.
  assert (get_latest_business sample_db = Some unlisted) as E by reflexivity.
  split; [exact E|].
  now apply (get_latest_business_is_max_id sample_db).
Defined.

(** ** Words *)

Lemma all_chars_of_list (P : ascii -> bool) l :
  all_chars P (string_of_list_ascii l) = forallb P l.
Proof. induction l as [|c l IH]; simpl; [reflexivity|now rewrite IH]. Qed.

Lemma all_chars_rev_string (P : ascii -> bool) cur :
  all_chars P (Py.rev_string cur) = forallb P cur.
Proof.
  unfold Py.rev_string. rewrite all_chars_of_list.
  induction cur as [|c cur IH]; [reflexivity|].
  simpl. rewrite forallb_app, IH. simpl. rewrite andb_true_r. apply andb_comm.
Qed.

Lemma rev_string_nonempty c cur : Py.rev_string (c :: cur) <> EmptyString.
Proof.
  unfold Py.rev_string. simpl. destruct (List.rev cur); discriminate.
Qed.

(** A word: not empty, and made of characters that are not white space and
    satisfy [P]. *)
Definition word_of (P : ascii -> bool) (w : string) : Prop :=
  w <> EmptyString
  /\ all_chars (fun c => negb (Py.isspace c) && P c) w = true.

Lemma split_from_words (P : ascii -> bool) s :
  forall cur,
    forallb (fun c => negb (Py.isspace c) && P c) cur = true ->
    all_chars P s = true ->
    Forall (word_of P) (Py.split_from cur s).
Proof.
  induction s as [|c s IH]; intros cur Hcur Hs; simpl.
  - destruct cur as [|d cur]; constructor; [|constructor].
    split; [apply rev_string_nonempty|].
    now rewrite all_chars_rev_string.
  - simpl in Hs. apply andb_true_iff in Hs as [Hc Hs].
    destruct (Py.isspace c) eqn:Ec.
    + destruct cur as [|d cur]; [now apply IH|].
      constructor; [|now apply IH].
      split; [apply rev_string_nonempty|].
      now rewrite all_chars_rev_string.
    + apply IH; [|exact Hs]. simpl. now rewrite Ec, Hc.
Qed.

Lemma split_words (P : ascii -> bool) s :
  all_chars P s = true -> Forall (word_of P) (Py.split s).
Proof. intros H. now apply split_from_words. Qed.

Lemma all_chars_true s : all_chars (fun _ => true) s = true.
Proof. induction s as [|c s IH]; [reflexivity|exact IH]. Qed.

Lemma all_chars_impl (P Q : ascii -> bool) s :
  (forall c, P c = true -> Q c = true) ->
  all_chars P s = true -> all_chars Q s = true.
Proof.
  intros H. induction s as [|c s IH]; simpl; [reflexivity|].
  rewrite !andb_true_iff. intros [Hc Hs]. split; [now apply H|now apply IH].
Qed.

Lemma word_no_space P w :
  word_of P w -> all_chars (fun c => negb (Py.isspace c)) w = true.
Proof.
  intros [_ H]. revert H. apply all_chars_impl.
  intros c Hc. now apply andb_true_iff in Hc as [Hc _].
Qed.

Lemma rstrip_no_space w :
  all_chars (fun c => negb (Py.isspace c)) w = true -> Py.rstrip w = w.
Proof.
  induction w as [|c w IH]; [reflexivity|]. simpl all_chars.
  rewrite andb_true_iff, negb_true_iff. intros [Hc Hw].
  rewrite rstrip_cons, (IH Hw), Hc. now destruct w.
Qed.

Lemma lstrip_no_space c w : Py.isspace c = false -> Py.lstrip (String c w) = String c w.
Proof. intros H. simpl. now rewrite H. Qed.

Lemma strip_word P w : word_of P w -> Py.strip w = w.
Proof.
  intros Hw. pose proof (word_no_space P w Hw) as Hn.
  destruct Hw as [Hne _]. destruct w as [|c w]; [contradiction|].
  unfold Py.strip. simpl in Hn. apply andb_true_iff in Hn as [Hc Hn].
  apply negb_true_iff in Hc. rewrite (lstrip_no_space c w Hc).
  apply rstrip_no_space. simpl. now rewrite Hc, Hn.
Qed.

Lemma rstrip_keeps_head c s :
  Py.isspace c = false -> Py.rstrip (String c s) <> EmptyString.
Proof.
  intros Hc. rewrite rstrip_cons. destruct (Py.rstrip s); [rewrite Hc|];
    discriminate.
Qed.

Lemma join_head_word P w ws :
  word_of P w ->
  exists c r, Py.join " " (w :: ws) = String c r /\ Py.isspace c = false.
Proof.
  intros Hw. pose proof (word_no_space P w Hw) as Hn.
  destruct Hw as [Hne _]. destruct w as [|c w]; [contradiction|].
  simpl in Hn. apply andb_true_iff in Hn as [Hc _].
  apply negb_true_iff in Hc.
  destruct ws as [|w' ws]; simpl; eauto.
Qed.

Lemma last_word P ws d :
  ws <> [] -> Forall (word_of P) ws -> word_of P (List.last ws d).
Proof.
  induction ws as [|w ws IH]; [contradiction|]. intros _ Hall.
  apply List.Forall_cons_iff in Hall as [Hw Hws].
  destruct ws as [|w' ws]; [exact Hw|]. apply IH; [discriminate|exact Hws].
Qed.

(** X21.  What the parser returns is trimmed; the location holds no white
    space, so it is at most one word; and a location is only ever returned
    together with a keyword (a one-word query is all keyword). *)
Theorem parse_search_query_shape (user_query : string) :
  let '(keyword, location) := parse_search_query user_query in
  Py.strip keyword = keyword
  /\ Py.strip location = location
  /\ all_chars (fun c => negb (Py.isspace c)) location = true
  /\ (location <> EmptyString -> keyword <> EmptyString).
Proof.
  unfold parse_search_query.
  set (q := Py.join " " _).
  pose proof (split_words (fun _ => true) q (all_chars_true q)) as Hwords.
  destruct (Py.split q) as [|w [|w' ws]] eqn:E.
  - repeat split; try reflexivity. intros H. now contradiction H.
  - apply List.Forall_cons_iff in Hwords as [Hw _].
    repeat split; try reflexivity.
    + apply (strip_word _ _ Hw).
    + intros H. now contradiction H.
  - assert (word_of (fun _ => true) (List.last (w :: w' :: ws) ""))
      as Hlast by (apply last_word; [discriminate|exact Hwords]).
    split; [apply strip_idem|]. split; [apply strip_idem|].
    rewrite (strip_word _ _ Hlast). split; [now apply word_no_space in Hlast|].
    intros _.
    apply List.Forall_cons_iff in Hwords as [Hw _].
    destruct (join_head_word (fun _ => true) w
                (List.removelast (w' :: ws)) Hw) as (c & r & Ej & Hc).
    change (List.removelast (w :: w' :: ws))
      with (w :: List.removelast (w' :: ws)).
    rewrite Ej. unfold Py.strip. rewrite (lstrip_no_space c r Hc).
    now apply rstrip_keeps_head.
Qed.

Lemma parse_search_query_shape_witness :
  parse_search_query "Best ice cream shop in Mumbai "
  = ("ice cream shop", "mumbai")
  /\ fst (parse_search_query "Best ice cream shop in Mumbai ")
     <> EmptyString.
Proof.
  split; [reflexivity|].
  pose proof (parse_search_query_shape "Best ice cream shop in Mumbai ") as H.
  destruct (parse_search_query "Best ice cream shop in Mumbai ")
    as [keyword location] eqn:E.
  destruct H as (_ & _ & _ & H). apply H.
  vm_compute in E. injection E as _ <-. discriminate.
Defined.

(** ** The corpus *)

Definition lowered (s : string) : bool :=
  all_chars (fun c => Ascii.eqb (Py.lower_char c) c) s.

Lemma lowered_lower s : lowered (Py.lower s) = true.
Proof.
  unfold lowered. induction s as [|c s IH]; [reflexivity|].
  cbn [Py.lower all_chars]. rewrite lower_char_idem, IH.
  now rewrite Ascii.eqb_refl.
Qed.

Lemma lowered_fixed s : lowered s = true -> Py.lower s = s.
Proof.
  unfold lowered. induction s as [|c s IH]; [reflexivity|].
  cbn [Py.lower all_chars]. rewrite andb_true_iff, Ascii.eqb_eq.
  intros [-> Hs]. now rewrite (IH Hs).
Qed.

Lemma lower_nonempty s : s <> EmptyString -> Py.lower s <> EmptyString.
Proof. destruct s; [contradiction|discriminate]. Qed.

Lemma distinct_In x l : In x (distinct l) <-> In x l.
Proof.
  induction l as [|y l IH]; [simpl; tauto|].
  cbn [distinct In]. destruct (Py.mem y l) eqn:M; cbn [In]; rewrite IH.
  - apply mem_true_iff in M. split; [tauto|]. intros [<-|H]; tauto.
  - tauto.
Qed.

Lemma distinct_NoDup l : List.NoDup (distinct l).
Proof.
  induction l as [|y l IH]; [constructor|].
  cbn [distinct]. destruct (Py.mem y l) eqn:M; [exact IH|].
  constructor; [|exact IH]. rewrite distinct_In. intros H.
  apply mem_true_iff in H. congruence.
Qed.

Lemma column_values_In col db v :
  In v (column_values col db)
  <-> v <> EmptyString /\ exists r, In r db /\ col r = Some v.
Proof.
  unfold column_values. rewrite List.in_flat_map. split.
  - intros (r & Hr & Hv). destruct (col r) as [s|] eqn:E; [|destruct Hv].
    destruct s as [|c s]; [destruct Hv|]. destruct Hv as [<-|[]].
    split; [discriminate|]. now exists r.
  - intros (Hne & r & Hr & E). exists r. split; [exact Hr|]. rewrite E.
    destruct v; [contradiction|]. now left.
Qed.

Lemma name_terms_facts n t :
  n <> EmptyString -> In t (name_terms n) ->
  t <> EmptyString /\ Py.lower t = t.
Proof.
  intros Hn. unfold name_terms.
  assert (Py.lower n <> EmptyString /\ Py.lower (Py.lower n) = Py.lower n)
    as Hname by (split; [now apply lower_nonempty|apply lower_idem]).
  pose proof (split_words (fun c => Ascii.eqb (Py.lower_char c) c)
                (Py.lower n) (lowered_lower n)) as Hwords.
  destruct (Py.split (Py.lower n)) as [|w ws].
  - destruct (2 <? _)%nat; simpl; intuition (subst; tauto).
  - apply List.Forall_cons_iff in Hwords as [[Hne Hw] _].
    assert (Py.lower w = w) as Hlw.
    { apply lowered_fixed. revert Hw. apply all_chars_impl.
      intros c Hc. now apply andb_true_iff in Hc as [_ Hc]. }
    destruct (2 <? _)%nat; simpl; intuition (subst; tauto).
Qed.

(** X22.  The corpus of the spelling corrector has no duplicates, holds
    only non-empty lowercase terms, and holds the lowercased form of every
    non-empty category, city and name in the table. *)
Theorem searchable_terms_facts (db : Store) :
  let terms := get_all_searchable_terms db in
  List.NoDup terms
  /\ (forall t, In t terms -> t <> EmptyString /\ Py.lower t = t)
  /\ (forall r v, In r db -> v <> EmptyString ->
        Listing.category r = Some v \/ Listing.city r = Some v
        \/ Listing.name r = Some v ->
        In (Py.lower v) terms).
Proof.
  unfold get_all_searchable_terms. cbv zeta.
  split; [apply distinct_NoDup|]. split.
  - intros t Ht. apply (proj1 (distinct_In _ _)) in Ht.
    rewrite !List.in_app_iff, !List.in_map_iff, List.in_flat_map in Ht.
    destruct Ht as [(v & <- & Hv)|[(v & <- & Hv)|(n & Hn & Ht)]].
    + apply column_values_In in Hv as [Hne _].
      split; [now apply lower_nonempty|apply lower_idem].
    + apply column_values_In in Hv as [Hne _].
      split; [now apply lower_nonempty|apply lower_idem].
    + apply column_values_In in Hn as [Hne _].
      now apply (name_terms_facts n).
  - intros r v Hr Hv Hcol. apply (proj2 (distinct_In _ _)).
    rewrite !List.in_app_iff, !List.in_map_iff, List.in_flat_map.
    destruct Hcol as [E|[E|E]].
    + left. exists v. split; [reflexivity|].
      apply column_values_In. split; [exact Hv|now exists r].
    + right. left. exists v. split; [reflexivity|].
      apply column_values_In. split; [exact Hv|now exists r].
    + right. right. exists v. split.
      * apply column_values_In. split; [exact Hv|now exists r].
      * unfold name_terms. destruct (2 <? _)%nat; now left.
Qed.

Lemma searchable_terms_facts_witness :
  In "restaurant" (get_all_searchable_terms [diner])
  /\ In "asha" (get_all_searchable_terms [diner]).
Proof.
  split; [|vm_compute; tauto].
  destruct (searchable_terms_facts [diner]) as (_ & _ & H).
  apply (H diner "Restaurant"); [now left|discriminate|now left].
Defined.

(** ** Suggested categories *)

Lemma distinct_scan_In seen l x :
  In x (distinct_scan seen l) -> In x l /\ ~ In x seen.
Proof.
  revert seen. induction l as [|y l IH]; intros seen; [simpl; tauto|].
  cbn [distinct_scan In]. destruct (Py.mem y seen) eqn:M; cbn [In].
  - intros H. apply IH in H. tauto.
  - intros [<-|H].
    + split; [now left|]. intros H. apply mem_true_iff in H. congruence.
    + apply IH in H. destruct H as [H1 H2]. split; [now right|].
      intros H3. apply H2. now right.
Qed.

Lemma distinct_scan_NoDup seen l : List.NoDup (distinct_scan seen l).
Proof.
  revert seen. induction l as [|y l IH]; intros seen; [constructor|].
  cbn [distinct_scan]. destruct (Py.mem y seen); [apply IH|].
  constructor; [|apply IH]. intros H. apply distinct_scan_In in H as [_ H].
  apply H. now left.
Qed.

Lemma firstn_NoDup {A} n : forall l : list A, List.NoDup l -> List.NoDup (firstn n l).
Proof.
  induction n as [|n IH]; intros l Hl; [constructor|].
  destruct Hl as [|x l Hx Hl]; simpl; constructor; [|now apply IH].
  intros H. apply Hx. now apply (firstn_In n).
Qed.

(** X23.  The suggested categories are at most 15, pairwise distinct and
    non-empty, and each is the category of a stored listing. *)
Theorem suggested_categories_facts (db : Store) :
  let categories := get_suggested_categories db in
  (List.length categories <= 15)%nat
  /\ List.NoDup categories
  /\ (forall c, In c categories ->
        c <> EmptyString /\ exists r, In r db /\ Listing.category r = Some c).
Proof.
  cbv zeta. unfold get_suggested_categories. split; [apply firstn_le_length|].
  split; [apply firstn_NoDup, distinct_scan_NoDup|].
  intros c Hc. apply firstn_In, distinct_scan_In in Hc as [Hc _].
  now apply column_values_In in Hc.
Qed.

Lemma suggested_categories_facts_witness :
  get_suggested_categories sample_db = ["Cafe"; "Bakery"; "Pizza"; "Salon"]
  /\ exists r, In r sample_db /\ Listing.category r = Some "Salon".
Proof.
  split; [reflexivity|].
  destruct (suggested_categories_facts sample_db) as (_ & _ & H).
  apply (H "Salon"). vm_compute. tauto.
Defined.
